(** * Smart calculator: a shallow embedding of [calculator.py]

    The development follows the source file top-down:

    - [Py]: the fragment of the Python runtime the calculator relies on
      (exceptions, the numeric tower [int] / [float] / [complex], the
      functions of module [operator], the [str] methods and the one regular
      expression the program uses, insertion-ordered dictionaries);
    - [Calculator]: the class itself, method by method;
    - the properties of the expression pipeline.

    Conventions.  A Python [list] used as a stack ([append] / [pop]) is a
    Rocq list whose head is the top of the stack; a list that is only
    appended to and then iterated ([postfix_expression]) keeps the source
    order.  A Python [str] is a Rocq [string]: its characters are the code
    points below 256, which is all the program ever tests for (operators,
    ASCII digits, ASCII letters, white space).  Python integers are
    unbounded ([Z]); Python floats are IEEE-754 binary64 values
    ([spec_float] at precision 53, [emax] 1024).  What CPython computes
    with the C library's [pow] and with [complex] operands is not fixed by
    the language; it enters the model as the parameter [libm], and every
    statement about the evaluator holds for all its values. *)

From Stdlib Require Import ZArith QArith List String Ascii Bool Lia.
From Stdlib Require Import Floats.SpecFloat.
Import ListNotations.

Local Open Scope string_scope.
Local Open Scope Z_scope.
Local Open Scope list_scope.

(* ================================================================== *)
(** ** The Python runtime the program uses *)
(* ================================================================== *)

Module Py.

(** Exceptions.  The first three are the classes the program declares
    (lines 12-21); the others are the built-in exceptions its statements
    can raise. *)
Inductive exn : Type :=
| InvalidExpression
| InvalidIdentifier
| UnknownVariable
| ZeroDivisionError
| OverflowError
| IndexError
| KeyError
| ValueError
| TypeError
| EOFError.

Definition exn_eqb (a b : exn) : bool :=
  match a, b with
  | InvalidExpression, InvalidExpression
  | InvalidIdentifier, InvalidIdentifier
  | UnknownVariable, UnknownVariable
  | ZeroDivisionError, ZeroDivisionError
  | OverflowError, OverflowError
  | IndexError, IndexError
  | KeyError, KeyError
  | ValueError, ValueError
  | TypeError, TypeError
  | EOFError, EOFError => true
  | _, _ => false
  end.

(** The error kinds the program classifies: the ones [process_expression]
    and [process_assignment] catch. *)
Definition classified (e : exn) : bool :=
  match e with
  | InvalidExpression | InvalidIdentifier | UnknownVariable => true
  | _ => false
  end.

(** A computation either returns or raises. *)
Inductive result (A : Type) : Type :=
| Ok (a : A)
| Raise (e : exn).
Arguments Ok {A} a.
Arguments Raise {A} e.

Definition bind {A B : Type} (r : result A) (k : A -> result B) : result B :=
  match r with
  | Ok a => k a
  | Raise e => Raise e
  end.

Notation "x <- r ;; k" := (bind r (fun x => k))
  (at level 61, r at next level, right associativity).

(** *** Numbers *)

Definition prec : Z := 53.
Definition emax : Z := 1024.

(** [complex] values only arise from a negative float raised to a
    fractional power; the model carries them without computing with them. *)
Inductive number : Type :=
| PInt (z : Z)
| PFloat (f : spec_float)
| PComplex (re im : spec_float).

(** [isinstance(x, int)] *)
Definition isinstance_int (x : number) : bool :=
  match x with
  | PInt _ => true
  | _ => false
  end.

Definition is_complex (x : number) : bool :=
  match x with
  | PComplex _ _ => true
  | _ => false
  end.

(** [float(z)] for an integer: the nearest binary64 value, ties to even;
    [OverflowError] when it is out of range. *)
Definition float_of_int (z : Z) : result spec_float :=
  match binary_normalize prec emax z 0 false with
  | S754_infinity _ => Raise OverflowError
  | f => Ok f
  end.

(** The conversion float arithmetic applies to each operand. *)
Definition to_float (x : number) : result spec_float :=
  match x with
  | PInt z => float_of_int z
  | PFloat f => Ok f
  | PComplex _ _ => Raise TypeError
  end.

Definition float_is_zero (f : spec_float) : bool :=
  match f with
  | S754_zero _ => true
  | _ => false
  end.

(** [a / b] on two integers: the correctly rounded quotient. *)
Definition int_true_divide (a b : Z) : result number :=
  if b =? 0 then Raise ZeroDivisionError
  else
    let '(q, e, l) := SFdiv_core_binary prec emax (Z.abs a) 0 (Z.abs b) 0 in
    match binary_round_aux prec emax (xorb (a <? 0) (b <? 0)) q e l with
    | S754_infinity _ => Raise OverflowError
    | f => Ok (PFloat f)
    end.

(** The arithmetic CPython hands to the C library and that IEEE-754 does
    not determine: [**] other than an integer raised to a non-negative
    integer, and every operation with a [complex] operand.  It is a
    parameter of the evaluator: what is proved holds whatever it returns. *)
Definition c_library : Type := string -> number -> number -> result number.

Section Operators.

Variable libm : c_library.

(** Float arithmetic with both operands converted first. *)
Definition float_binop (op : spec_float -> spec_float -> spec_float)
    (a b : number) : result number :=
  fa <- to_float a ;;
  fb <- to_float b ;;
  Ok (PFloat (op fa fb)).

(** [operator.sub] *)
Definition operator_sub (a b : number) : result number :=
  if is_complex a || is_complex b then libm "-" a b
  else
    match a, b with
    | PInt x, PInt y => Ok (PInt (x - y))
    | _, _ => float_binop (SFsub prec emax) a b
    end.

(** [operator.add] *)
Definition operator_add (a b : number) : result number :=
  if is_complex a || is_complex b then libm "+" a b
  else
    match a, b with
    | PInt x, PInt y => Ok (PInt (x + y))
    | _, _ => float_binop (SFadd prec emax) a b
    end.

(** [operator.mul] *)
Definition operator_mul (a b : number) : result number :=
  if is_complex a || is_complex b then libm "*" a b
  else
    match a, b with
    | PInt x, PInt y => Ok (PInt (x * y))
    | _, _ => float_binop (SFmul prec emax) a b
    end.

(** [operator.truediv]: true division, never truncating; a zero divisor
    raises [ZeroDivisionError]. *)
Definition operator_truediv (a b : number) : result number :=
  if is_complex a || is_complex b then libm "/" a b
  else
    match a, b with
    | PInt x, PInt y => int_true_divide x y
    | _, _ =>
        fa <- to_float a ;;
        fb <- to_float b ;;
        if float_is_zero fb then Raise ZeroDivisionError
        else Ok (PFloat (SFdiv prec emax fa fb))
    end.

(** [operator.pow]: exact on an integer raised to a non-negative integer. *)
Definition operator_pow (a b : number) : result number :=
  match a, b with
  | PInt x, PInt y => if 0 <=? y then Ok (PInt (x ^ y)) else libm "^" a b
  | _, _ => libm "^" a b
  end.

End Operators.

(** [operator.neg] *)
Definition operator_neg (a : number) : number :=
  match a with
  | PInt x => PInt (- x)
  | PFloat f => PFloat (SFopp f)
  | PComplex re im => PComplex (SFopp re) (SFopp im)
  end.

(** [operator.pos] *)
Definition operator_pos (a : number) : number := a.

(** [x % 1 == 0] on a float: the remainder of a finite value by one is
    zero exactly when no fractional bit is set; on an infinity or a NaN the
    remainder is a NaN, which equals nothing. *)
Definition float_mod1_is_zero (f : spec_float) : bool :=
  match f with
  | S754_zero _ => true
  | S754_finite _ m e =>
      if 0 <=? e then true else (Zpos m) mod (2 ^ (- e)) =? 0
  | _ => false
  end.

(** [x % 1 == 0] *)
Definition mod1_is_zero (x : number) : result bool :=
  match x with
  | PInt _ => Ok true
  | PFloat f => Ok (float_mod1_is_zero f)
  | PComplex _ _ => Raise TypeError
  end.

(** [int(f)] on a float: truncation towards zero. *)
Definition int_of_float (f : spec_float) : result Z :=
  match f with
  | S754_zero _ => Ok 0
  | S754_finite s m e =>
      Ok (cond_Zopp s (if 0 <=? e then Zpos m * 2 ^ e
                       else Zpos m / 2 ^ (- e)))
  | S754_infinity _ => Raise OverflowError
  | S754_nan => Raise ValueError
  end.

(** [int(x)] *)
Definition int_ (x : number) : result number :=
  match x with
  | PInt z => Ok (PInt z)
  | PFloat f => z <- int_of_float f ;; Ok (PInt z)
  | PComplex _ _ => Raise TypeError
  end.

(** *** Strings *)

(** Membership in [string.digits]. *)
Definition is_digit (c : ascii) : bool :=
  let n := nat_of_ascii c in (48 <=? n)%nat && (n <=? 57)%nat.

(** Membership in [string.ascii_letters]. *)
Definition is_ascii_letter (c : ascii) : bool :=
  let n := nat_of_ascii c in
  ((97 <=? n)%nat && (n <=? 122)%nat) || ((65 <=? n)%nat && (n <=? 90)%nat).

(** [str.isspace] on one character, which is also what [\s] matches and
    what [strip] and [split] remove. *)
Definition is_space (c : ascii) : bool :=
  let n := nat_of_ascii c in
  ((9 <=? n)%nat && (n <=? 13)%nat) || ((28 <=? n)%nat && (n <=? 32)%nat)
  || (n =? 133)%nat || (n =? 160)%nat.

(** [set(s).issubset(chars)] for a set of characters given by its test. *)
Fixpoint all_chars (p : ascii -> bool) (s : string) : bool :=
  match s with
  | EmptyString => true
  | String c r => p c && all_chars p r
  end.

(** [bool(set(s).intersection(chars))] *)
Fixpoint some_char (p : ascii -> bool) (s : string) : bool :=
  match s with
  | EmptyString => false
  | String c r => p c || some_char p r
  end.

Definition digit_value (c : ascii) : Z := Z.of_nat (nat_of_ascii c) - 48.

Fixpoint int_of_digits (acc : Z) (s : string) : Z :=
  match s with
  | EmptyString => acc
  | String c r => int_of_digits (10 * acc + digit_value c) r
  end.

(** [int(s)] on a string of ASCII digits, the only strings the program
    passes to it; the empty string is refused with [ValueError].  (Recent
    CPython versions also refuse literals of more than 4300 digits unless
    configured otherwise; the language itself sets no bound, and neither
    does the model.) *)
Definition int_of_str (s : string) : result Z :=
  match s with
  | EmptyString => Raise ValueError
  | _ => Ok (int_of_digits 0 s)
  end.

Fixpoint lstrip (s : string) : string :=
  match s with
  | EmptyString => EmptyString
  | String c r => if is_space c then lstrip r else s
  end.

Fixpoint rstrip (s : string) : string :=
  match s with
  | EmptyString => EmptyString
  | String c r =>
      match rstrip r with
      | EmptyString => if is_space c then EmptyString else String c EmptyString
      | r' => String c r'
      end
  end.

(** [s.strip()] *)
Definition strip (s : string) : string := rstrip (lstrip s).

(** [s.split()]: the maximal runs of characters that are not white
    space.  [word] is the run being read, last character first. *)
Fixpoint split_from (word : list ascii) (s : string) : list string :=
  let flush := match word with
               | [] => []
               | _ => [string_of_list_ascii (rev word)]
               end in
  match s with
  | EmptyString => flush
  | String c r =>
      if is_space c then flush ++ split_from [] r
      else split_from (c :: word) r
  end.

Definition split (s : string) : list string := split_from [] s.

(** [s.split(sep, 1)] for a separator that is not empty: cut at its first
    occurrence. *)
Fixpoint split_once (sep s : string) : list string :=
  if prefix sep s then [EmptyString; substring (length sep) (length s) s]
  else
    match s with
    | EmptyString => [EmptyString]
    | String c r =>
        match split_once sep r with
        | head :: tail => String c head :: tail
        | [] => []
        end
    end.

(** *** Dictionaries

    A [dict] keeps its keys in insertion order; assigning to a key that is
    present replaces its value in place. *)

Definition dict (V : Type) : Type := list (string * V).

Fixpoint dict_get {V : Type} (k : string) (d : dict V) : option V :=
  match d with
  | [] => None
  | (k', v) :: r => if String.eqb k k' then Some v else dict_get k r
  end.

(** [k in d] *)
Definition dict_mem {V : Type} (k : string) (d : dict V) : bool :=
  match dict_get k d with
  | Some _ => true
  | None => false
  end.

(** [d[k]] *)
Definition dict_item {V : Type} (k : string) (d : dict V) : result V :=
  match dict_get k d with
  | Some v => Ok v
  | None => Raise KeyError
  end.

(** [d[k] = v] *)
Fixpoint dict_set {V : Type} (k : string) (v : V) (d : dict V) : dict V :=
  match d with
  | [] => [(k, v)]
  | (k', v') :: r =>
      if String.eqb k k' then (k', v) :: r else (k', v') :: dict_set k v r
  end.

End Py.

(* ================================================================== *)
(** ** class Calculator *)
(* ================================================================== *)

Module Calculator.
Import Py.

(** An item of a postfix expression, [Union[str, float]]: an operator tag
    or a number. *)
Inductive item : Type :=
| Tok (s : string)
| Num (x : number).

(** The instance state: [self._variables]. *)
Record t : Type := { _variables : dict number }.

(** [__init__] *)
Definition init : t := {| _variables := [] |}.

(** The class attribute [precedence] (lines 34-40). *)
Definition precedence : dict Z :=
  [("-", 1); ("+", 1); ("/", 2); ("*", 2); ("^", 3)].

(** The class attribute [unary_operators] (lines 49-52). *)
Definition unary_operators : dict (number -> number) :=
  [("-", operator_neg); ("+", operator_pos)].

(** The class attribute [supported_operators] (line 32) is the pattern
    [\s*([-+/*^()=])\s*]; these are the characters of its group. *)
Definition supported_operators : list ascii :=
  ["-"; "+"; "/"; "*"; "^"; "("; ")"; "="]%char.

Definition is_operator_char (c : ascii) : bool :=
  existsb (Ascii.eqb c) supported_operators.

(** The first character that is not white space is an operator: the
    regular expression matches from here. *)
Fixpoint operator_ahead (s : string) : bool :=
  match s with
  | EmptyString => false
  | String c r => if is_space c then operator_ahead r else is_operator_char c
  end.

(** [re.sub(supported_operators, r' \1 ', s)]: the matches of
    [\s*([-+/*^()=])\s*], found from left to right, each replaced by its
    operator between two spaces.  [after_operator] holds while the white
    space that follows an operator is being consumed. *)
Fixpoint sub_operators (after_operator : bool) (s : string) : string :=
  match s with
  | EmptyString => EmptyString
  | String c r =>
      if is_operator_char c then
        String " " (String c (String " " (sub_operators true r)))
      else if is_space c then
        if after_operator then sub_operators true r
        else if operator_ahead r then sub_operators false r
        else String c (sub_operators false r)
      else String c (sub_operators false r)
  end.

(** [remove_extra_spaces] (lines 83-88) *)
Definition remove_extra_spaces (expression : string) : string :=
  sub_operators false (strip expression).

(** The class attribute [binary_operators] (lines 42-48); each function
    takes the C library it may call as its first argument. *)
Definition binary_operators
    : dict (c_library -> number -> number -> result number) :=
  [("-", operator_sub); ("+", operator_add); ("/", operator_truediv);
   ("*", operator_mul); ("^", operator_pow)].

Section Evaluator.

Variable libm : c_library.

(** One turn of the loop of [compute_postfix_expresion] (lines 95-108). *)
Definition compute_token (token : item) (stack : list number)
    : result (list number) :=
  match token with
  | Tok s =>
      match dict_get s binary_operators, stack with
      | Some operator_, b :: a :: rest =>
          r <- operator_ libm a b ;; Ok (r :: rest)
      | _, _ => Raise InvalidExpression
      end
  | Num x =>
      if isinstance_int x then Ok (x :: stack) else Raise InvalidExpression
  end.

Fixpoint compute_loop (postfix_expression : list item) (stack : list number)
    : result (list number) :=
  match postfix_expression with
  | [] => Ok stack
  | token :: rest =>
      stack' <- compute_token token stack ;; compute_loop rest stack'
  end.

(** Lines 109-112: the top of the stack, converted to [int] when its
    remainder by one is zero. *)
Definition compute_return (stack : list number) : result number :=
  match stack with
  | [] => Raise IndexError
  | top :: _ =>
      integral <- mod1_is_zero top ;;
      if integral then int_ top else Ok top
  end.

(** [compute_postfix_expresion] (lines 90-112) *)
Definition compute_postfix_expresion (postfix_expression : list item)
    : result number :=
  stack <- compute_loop postfix_expression [] ;; compute_return stack.

End Evaluator.

(** The local variables of [transform_infix_to_postfix] (lines 117-123). *)
Record locals : Type := {
  binary_operators_stack : list string;
  unary_operators_stack : list string;
  next_operator_is_binary : bool;
  postfix_expression : list item
}.

Definition locals0 : locals :=
  {| binary_operators_stack := [];
     unary_operators_stack := [];
     next_operator_is_binary := false;
     postfix_expression := [] |}.

(** [token in Calculator.binary_operators] *)
Definition is_binary_operator (token : string) : bool :=
  dict_mem token binary_operators.

(** [token in Calculator.unary_operators] *)
Definition is_unary_operator (token : string) : bool :=
  dict_mem token unary_operators.

(** Lines 127-133: operators leave the stack for the output while the top
    is not a parenthesis and the arriving operator does not bind tighter. *)
Fixpoint pop_higher (token : string) (stack : list string)
    (postfix : list item) : result (list string * list item) :=
  match stack with
  | [] => Ok ([], postfix)
  | top :: rest =>
      if String.eqb top "(" then Ok (stack, postfix)
      else
        p <- dict_item token precedence ;;
        q <- dict_item top precedence ;;
        if p <=? q then pop_higher token rest (postfix ++ [Tok top])
        else Ok (stack, postfix)
  end.

(** Lines 144-146 and 155-157: the pending unary operators are applied,
    the last one pushed first. *)
Fixpoint apply_unary (stack : list string) (x : number) : result number :=
  match stack with
  | [] => Ok x
  | top :: rest =>
      operator_ <- dict_item top unary_operators ;;
      apply_unary rest (operator_ x)
  end.

(** Lines 167-168 and 181-182: operators leave the stack for the output
    down to the first parenthesis. *)
Fixpoint pop_to_paren (stack : list string) (postfix : list item)
    : list string * list item :=
  match stack with
  | [] => ([], postfix)
  | top :: rest =>
      if String.eqb top "(" then (stack, postfix)
      else pop_to_paren rest (postfix ++ [Tok top])
  end.

(** One turn of the loop of [transform_infix_to_postfix]
    (lines 124-179). *)
Definition transform_token (self : t) (token : string) (l : locals)
    : result locals :=
  let expect_binary := next_operator_is_binary l in
  (* binary operator *)
  if expect_binary && is_binary_operator token then
    sp <- pop_higher token (binary_operators_stack l) (postfix_expression l) ;;
    Ok {| binary_operators_stack := token :: fst sp;
          unary_operators_stack := unary_operators_stack l;
          next_operator_is_binary := false;
          postfix_expression := snd sp |}
  (* unary operator *)
  else if is_unary_operator token && negb expect_binary then
    Ok {| binary_operators_stack := binary_operators_stack l;
          unary_operators_stack := token :: unary_operators_stack l;
          next_operator_is_binary := expect_binary;
          postfix_expression := postfix_expression l |}
  (* number *)
  else if all_chars is_digit token && negb expect_binary then
    z <- int_of_str token ;;
    number <- apply_unary (unary_operators_stack l) (PInt z) ;;
    Ok {| binary_operators_stack := binary_operators_stack l;
          unary_operators_stack := [];
          next_operator_is_binary := true;
          postfix_expression := postfix_expression l ++ [Num number] |}
  (* variable *)
  else if all_chars is_ascii_letter token && negb expect_binary then
    match dict_get token (_variables self) with
    | None => Raise UnknownVariable
    | Some value =>
        number <- apply_unary (unary_operators_stack l) value ;;
        Ok {| binary_operators_stack := binary_operators_stack l;
              unary_operators_stack := [];
              next_operator_is_binary := true;
              postfix_expression := postfix_expression l ++ [Num number] |}
    end
  (* parentheses *)
  else if String.eqb token "(" && negb expect_binary then
    match unary_operators_stack l with
    | _ :: _ => Raise InvalidExpression
    | [] =>
        Ok {| binary_operators_stack := token :: binary_operators_stack l;
              unary_operators_stack := [];
              next_operator_is_binary := expect_binary;
              postfix_expression := postfix_expression l |}
    end
  else if String.eqb token ")" && expect_binary then
    match pop_to_paren (binary_operators_stack l) (postfix_expression l) with
    | ([], _) => Raise InvalidExpression
    | (_ :: stack, postfix) =>
        Ok {| binary_operators_stack := stack;
              unary_operators_stack := unary_operators_stack l;
              next_operator_is_binary := expect_binary;
              postfix_expression := postfix |}
    end
  (* bad variable *)
  else if some_char is_ascii_letter token && some_char is_digit token then
    Raise InvalidIdentifier
  (* unknown *)
  else Raise InvalidExpression.

(** The loop of lines 124-179. *)
Fixpoint transform_loop (self : t) (infix_expression : list string)
    (l : locals) : result locals :=
  match infix_expression with
  | [] => Ok l
  | token :: rest =>
      l' <- transform_token self token l ;; transform_loop self rest l'
  end.

(** Lines 180-186: what is left on the stack goes to the output; a
    parenthesis left there is an error. *)
Definition transform_return (l : locals) : result (list item) :=
  match pop_to_paren (binary_operators_stack l) (postfix_expression l) with
  | ([], postfix) => Ok postfix
  | (_ :: _, _) => Raise InvalidExpression
  end.

(** [transform_infix_to_postfix] (lines 114-186) *)
Definition transform_infix_to_postfix (self : t)
    (infix_expression : list string) : result (list item) :=
  l <- transform_loop self infix_expression locals0 ;; transform_return l.

(** What a method prints: a value ([print(x)]), one of the fixed
    messages, the help text, or the listing of the variables. *)
Inductive output : Type :=
| PrintValue (x : number)
| PrintText (s : string)
| PrintHelp
| PrintVariables (d : dict number).

(** What a method leaves behind: the instance, what it printed, and the
    exception that escaped it, if one did. *)
Record effect : Type := {
  self_after : t;
  printed : list output;
  escaped : option exn
}.

Definition prints (self : t) (o : output) : effect :=
  {| self_after := self; printed := [o]; escaped := None |}.

Definition escapes (self : t) (e : exn) : effect :=
  {| self_after := self; printed := []; escaped := Some e |}.

(** [help] (lines 57-67) *)
Definition help (self : t) : effect := prints self PrintHelp.

(** [print_variables] (lines 69-73) *)
Definition print_variables (self : t) : effect :=
  prints self (PrintVariables (_variables self)).

(** [process_command] (lines 75-81) *)
Definition process_command (self : t) (string : string) : effect :=
  if String.eqb string "/help" then help self
  else if String.eqb string "/variables" then print_variables self
  else prints self (PrintText "Unknown command").

Section Session.

Variable libm : c_library.

(** The expression both methods evaluate:
    [compute_postfix_expresion(transform_infix_to_postfix(tokens))]. *)
Definition evaluate (self : t) (infix_expression : list string)
    : result number :=
  postfix <- transform_infix_to_postfix self infix_expression ;;
  compute_postfix_expresion libm postfix.

(** [process_expression] (lines 188-202) *)
Definition process_expression (self : t) (expression : string) : effect :=
  let expression := remove_extra_spaces expression in
  let infix_expression := split expression in
  match evaluate self infix_expression with
  | Ok value => prints self (PrintValue value)
  | Raise InvalidExpression => prints self (PrintText "Invalid expression")
  | Raise UnknownVariable => prints self (PrintText "Unknown variable")
  | Raise InvalidIdentifier => prints self (PrintText "Invalid identifier")
  | Raise e => escapes self e
  end.

(** [process_assignment] (lines 204-220) *)
Definition process_assignment (self : t) (string : string) : effect :=
  let string := remove_extra_spaces string in
  match split_once " = " string with
  | [identifier; expression] =>
      let infix_expression := split expression in
      if all_chars is_ascii_letter identifier then
        match evaluate self infix_expression with
        | Raise InvalidExpression | Raise InvalidIdentifier =>
            prints self (PrintText "Invalid assignment")
        | Raise UnknownVariable => prints self (PrintText "Unknown variable")
        | Raise e => escapes self e
        | Ok value =>
            {| self_after :=
                 {| _variables := dict_set identifier value (_variables self) |};
               printed := [];
               escaped := None |}
        end
      else prints self (PrintText "Invalid identifier")
  | _ => escapes self ValueError
  end.

(** The body of the loop of [run] (lines 225-230), for a line that is
    not [/exit]. *)
Definition process_line (self : t) (input_string : string) : effect :=
  if prefix "/" input_string then process_command self input_string
  else if some_char (Ascii.eqb "=") input_string then
    process_assignment self input_string
  else
    match input_string with
    | EmptyString => {| self_after := self; printed := []; escaped := None |}
    | _ => process_expression self input_string
    end.

(** [run] (lines 222-232), reading its input from [lines]: [input()]
    raises [EOFError] when they run out, and an exception that escapes a
    method ends the program. *)
Fixpoint run_from (self : t) (lines : list string) (out : list output)
    : effect :=
  match lines with
  | [] => {| self_after := self; printed := out; escaped := Some EOFError |}
  | input_string :: rest =>
      if String.eqb input_string "/exit" then
        {| self_after := self;
           printed := out ++ [PrintText "Bye!"];
           escaped := None |}
      else
        let e := process_line self input_string in
        match escaped e with
        | Some _ =>
            {| self_after := self_after e;
               printed := out ++ printed e;
               escaped := escaped e |}
        | None => run_from (self_after e) rest (out ++ printed e)
        end
  end.

Definition run (self : t) (lines : list string) : effect :=
  run_from self lines [].

End Session.

End Calculator.

(* ================================================================== *)
(** ** Vocabulary of the specification *)
(* ================================================================== *)

Import Py Calculator.

(** A property of the evaluator that holds whatever the C library
    computes where the model leaves it open. *)
Definition for_every_libm (P : c_library -> Prop) : Prop :=
  forall libm : c_library, P libm.

(** The rational number a finite float stands for: mantissa times two to
    the exponent. *)
Definition float_Q (f : spec_float) : option Q :=
  match f with
  | S754_zero _ => Some 0%Q
  | S754_finite s m e =>
      let n := cond_Zopp s (Zpos m) in
      Some (if 0 <=? e then inject_Z (n * 2 ^ e)
            else Qmake n (Z.to_pos (2 ^ (- e))))
  | _ => None
  end.

(** The number [x] is, mathematically, the integer [z]. *)
Definition is_integer (x : number) (z : Z) : Prop :=
  match x with
  | PInt y => y = z
  | PFloat f =>
      match float_Q f with
      | Some q => (q == inject_Z z)%Q
      | None => False
      end
  | PComplex _ _ => False
  end.

(** [v] is [x] as the evaluator reports it: the integer [x] equals when
    there is one, and [x] itself otherwise. *)
Definition normal_form_of (x v : number) : Prop :=
  (exists z, is_integer x z /\ v = PInt z)
  \/ ((forall z, ~ is_integer x z) /\ v = x).

(** The float 0.5. *)
Definition half : spec_float := S754_finite false 4503599627370496 (-53).

(** The precedence of an operator, read from the table. *)
Definition prec_of (o : string) : Z :=
  match dict_get o precedence with
  | Some p => p
  | None => 0
  end.

(** The function the table [binary_operators] gives for an operator. *)
Definition binary_function (libm : c_library) (o : string)
    (a b : number) : result number :=
  operator_ <- dict_item o binary_operators ;; operator_ libm a b.



(** The identifier and the right-hand side [process_assignment] reads
    from a line. *)
Definition assignment_of (line identifier expression : string) : Prop :=
  split_once " = " (remove_extra_spaces line) = [identifier; expression].

(** The numbers and the operator tags of a postfix sequence, and the
    operators, parentheses apart, of an operator stack. *)
Definition is_operand (i : item) : bool :=
  match i with
  | Num _ => true
  | Tok _ => false
  end.

Definition operands (postfix : list item) : nat :=
  List.length (filter is_operand postfix).

Definition operators (postfix : list item) : nat :=
  List.length (filter (fun i => negb (is_operand i)) postfix).

Definition pending (stack : list string) : nat :=
  List.length (filter (fun o => negb (String.eqb o "(")) stack).

(** What the loop of the transformer keeps true: the operands sent to the
    output are as many as the operators sent or waiting, plus one when an
    operand was read last. *)
Definition operands_match (l : locals) : Prop :=
  operands (postfix_expression l)
  = (operators (postfix_expression l) + pending (binary_operators_stack l)
     + (if next_operator_is_binary l then 1 else 0))%nat.

(** The token is an integer literal: ASCII digits, at least one. *)
Definition is_literal (token : string) : Prop :=
  all_chars is_digit token = true /\ token <> "".





(** The parentheses waiting on the operator stack. *)
Definition open_parens (stack : list string) : nat :=
  count_occ string_dec stack "(".


(** What the operator stack and the unary stack hold while
    [transform_infix_to_postfix] runs. *)
Definition well_formed (l : locals) : Prop :=
  Forall (fun o => o = "(" \/ is_binary_operator o = true)
    (binary_operators_stack l)
  /\ Forall (fun o => is_unary_operator o = true) (unary_operators_stack l).

(** The turns of the loop of [transform_infix_to_postfix] that do not
    raise, one constructor for each branch. *)
Inductive token_step (self : Calculator.t) (token : string) (l : locals)
    : locals -> Prop :=
| step_binary stack postfix :
    next_operator_is_binary l = true ->
    is_binary_operator token = true ->
    pop_higher token (binary_operators_stack l) (postfix_expression l)
    = Ok (stack, postfix) ->
    token_step self token l
      {| binary_operators_stack := token :: stack;
         unary_operators_stack := unary_operators_stack l;
         next_operator_is_binary := false;
         postfix_expression := postfix |}
| step_unary :
    next_operator_is_binary l = false ->
    is_unary_operator token = true ->
    token_step self token l
      {| binary_operators_stack := binary_operators_stack l;
         unary_operators_stack := token :: unary_operators_stack l;
         next_operator_is_binary := false;
         postfix_expression := postfix_expression l |}
| step_number z x :
    next_operator_is_binary l = false ->
    is_unary_operator token = false ->
    all_chars is_digit token = true ->
    int_of_str token = Ok z ->
    apply_unary (unary_operators_stack l) (PInt z) = Ok x ->
    token_step self token l
      {| binary_operators_stack := binary_operators_stack l;
         unary_operators_stack := [];
         next_operator_is_binary := true;
         postfix_expression := postfix_expression l ++ [Num x] |}
| step_variable value x :
    next_operator_is_binary l = false ->
    is_unary_operator token = false ->
    all_chars is_digit token = false ->
    all_chars is_ascii_letter token = true ->
    dict_get token (_variables self) = Some value ->
    apply_unary (unary_operators_stack l) value = Ok x ->
    token_step self token l
      {| binary_operators_stack := binary_operators_stack l;
         unary_operators_stack := [];
         next_operator_is_binary := true;
         postfix_expression := postfix_expression l ++ [Num x] |}
| step_open :
    next_operator_is_binary l = false ->
    token = "(" ->
    unary_operators_stack l = [] ->
    token_step self token l
      {| binary_operators_stack := "(" :: binary_operators_stack l;
         unary_operators_stack := [];
         next_operator_is_binary := false;
         postfix_expression := postfix_expression l |}
| step_close top stack postfix :
    next_operator_is_binary l = true ->
    token = ")" ->
    pop_to_paren (binary_operators_stack l) (postfix_expression l)
    = (top :: stack, postfix) ->
    token_step self token l
      {| binary_operators_stack := stack;
         unary_operators_stack := unary_operators_stack l;
         next_operator_is_binary := true;
         postfix_expression := postfix |}.

(** *** Tokens

    A lexer written directly: white space separates, an operator character
    is a token of its own, and any other run of characters is one token.
    [word] is the run being read, last character first. *)
Definition flush (word : list ascii) : list string :=
  match word with
  | [] => []
  | _ => [string_of_list_ascii (rev word)]
  end.

Fixpoint lex_from (word : list ascii) (s : string) : list string :=
  match s with
  | EmptyString => flush word
  | String c r =>
      if is_operator_char c then
        flush word ++ String c EmptyString :: lex_from [] r
      else if is_space c then flush word ++ lex_from [] r
      else lex_from (c :: word) r
  end.

Definition lex (s : string) : list string := lex_from [] s.

(** The tokens of a line, as [process_expression] computes them. *)
Definition tokens_of (line : string) : list string :=
  split (remove_extra_spaces line).

(** A token is one operator character, or a run of characters none of
    which is an operator or white space. *)
Definition operator_token (token : string) : Prop :=
  exists c, is_operator_char c = true /\ token = String c EmptyString.

Definition word_token (token : string) : Prop :=
  token <> ""
  /\ all_chars (fun c => negb (is_operator_char c) && negb (is_space c)) token
     = true.

(** An item a postfix sequence may hold: a number, or the tag of a
    binary operator. *)
Definition postfix_item (i : item) : Prop :=
  match i with
  | Tok o => is_binary_operator o = true
  | Num _ => True
  end.

(** *** Expressions

    The expressions whose sub-expressions are all parenthesised, with
    their token sequence, their postfix sequence and their value computed
    by recursion on the expression. *)
Inductive expr : Type :=
| Lit (token : string)
| Bin (o : string) (l r : expr).

Fixpoint expr_ok (e : expr) : Prop :=
  match e with
  | Lit token => is_literal token
  | Bin o l r => is_binary_operator o = true /\ expr_ok l /\ expr_ok r
  end.


Fixpoint postfix_of (e : expr) : list item :=
  match e with
  | Lit token => [Num (PInt (int_of_digits 0 token))]
  | Bin o l r => postfix_of l ++ postfix_of r ++ [Tok o]
  end.

Fixpoint value_of (libm : c_library) (e : expr) : result number :=
  match e with
  | Lit token => Ok (PInt (int_of_digits 0 token))
  | Bin o l r =>
      a <- value_of libm l ;;
      b <- value_of libm r ;;
      binary_function libm o a b
  end.



(** An item the evaluator accepts: an [int], or the tag of a binary
    operator. *)
Definition evaluable_item (i : item) : Prop :=
  match i with
  | Tok o => is_binary_operator o = true
  | Num x => isinstance_int x = true
  end.

(** A sequence of prefix signs applied to a number of any kind. *)
Definition signed_number (signs : list string) (x : number) : number :=
  fold_right
    (fun s v => if String.eqb s "-" then operator_neg v else operator_pos v)
    x signs.

(** A value the Variable Store may hold: an [int], or a float that is
    no integer. *)
Definition stored_value (x : number) : Prop :=
  match x with
  | PInt _ => True
  | PFloat _ => forall z, ~ is_integer x z
  | PComplex _ _ => False
  end.

(** The Variable Store as a session keeps it: no identifier twice,
    alphabetic identifiers, values in normal form. *)
Definition store_ok (d : dict number) : Prop :=
  NoDup (map fst d)
  /\ Forall (fun kv => all_chars is_ascii_letter (fst kv) = true
                       /\ stored_value (snd kv)) d.

(** An item of integer arithmetic: an [int], or one of the operators
    that keep integers integers. *)
Definition integer_item (i : item) : Prop :=
  match i with
  | Num x => isinstance_int x = true
  | Tok o => o = "+" \/ o = "-" \/ o = "*"
  end.

(* ================================================================== *)
(** ** Properties *)
(* ================================================================== *)

(** *** The value returned by the evaluator *)

Lemma float_mod1_int_of_float (f : spec_float) :
  float_mod1_is_zero f = true ->
  exists z, int_of_float f = Ok z /\ is_integer (PFloat f) z.
Proof.
  destruct f as [s| | |s m e];
    unfold float_mod1_is_zero, int_of_float, is_integer, float_Q;
    try discriminate; intros H.
  - exists 0. split; reflexivity.
  - eexists. split; [reflexivity|].
    destruct (0 <=? e) eqn:He.
    + unfold Qeq, inject_Z; cbn [Qnum Qden].
      destruct s; cbn [cond_Zopp]; lia.
    + apply Z.leb_gt in He. apply Z.eqb_eq in H.
      assert (HD : 0 < 2 ^ (- e)) by (apply Z.pow_pos_nonneg; lia).
      apply Z.div_exact in H; [|lia].
      unfold Qeq, inject_Z; cbn [Qnum Qden]. rewrite Z2Pos.id by lia.
      destruct s; cbn [cond_Zopp]; lia.
Qed.

Lemma float_mod1_not_integer (f : spec_float) (z : Z) :
  float_mod1_is_zero f = false -> ~ is_integer (PFloat f) z.
Proof.
  destruct f as [s| | |s m e];
    unfold float_mod1_is_zero, is_integer, float_Q;
    try discriminate; auto.
  destruct (0 <=? e) eqn:He; [discriminate|].
  intros H Hz. apply Z.leb_gt in He. apply Z.eqb_neq in H. apply H.
  assert (HD : 0 < 2 ^ (- e)) by (apply Z.pow_pos_nonneg; lia).
  unfold Qeq, inject_Z in Hz; cbn [Qnum Qden] in Hz.
  rewrite Z2Pos.id in Hz by lia.
  destruct s; cbn [cond_Zopp] in Hz.
  - apply Z.mod_divide; [lia|]. exists (- z). lia.
  - apply Z.mod_divide; [lia|]. exists z. lia.
Qed.

(** What lines 109-112 return for each kind of value on top of the
    stack. *)
Lemma compute_return_cases (top : number) (rest : list number) :
  match top with
  | PInt z => Calculator.compute_return (top :: rest) = Ok (PInt z)
  | PFloat f =>
      (exists z, is_integer top z
                 /\ Calculator.compute_return (top :: rest) = Ok (PInt z))
      \/ ((forall z, ~ is_integer top z)
          /\ Calculator.compute_return (top :: rest) = Ok top)
  | PComplex _ _ => Calculator.compute_return (top :: rest) = Raise TypeError
  end.
Proof.
  destruct top as [z|f|re im]; try reflexivity.
  unfold Calculator.compute_return, mod1_is_zero, bind, int_.
  destruct (float_mod1_is_zero f) eqn:H.
  - left. destruct (float_mod1_int_of_float f H) as (z & Hz & Hi).
    exists z. split; [exact Hi|]. now rewrite Hz.
  - right. split; [|reflexivity].
    intros z. now apply float_mod1_not_integer.
Qed.

Lemma compute_return_normal_form (top : number) (rest : list number) :
  is_complex top = false ->
  exists v, Calculator.compute_return (top :: rest) = Ok v
            /\ normal_form_of top v.
Proof.
  intros Hc. pose proof (compute_return_cases top rest) as H.
  destruct top as [z|f|re im]; [| |discriminate].
  - exists (PInt z). split; [exact H|]. left. now exists z.
  - destruct H as [(z & Hz & H)|(Hn & H)].
    + exists (PInt z). split; [exact H|]. left. now exists z.
    + exists (PFloat f). split; [exact H|]. now right.
Qed.


Section EvaluatorFacts.

Variable libm : c_library.


Lemma compute_postfix_inv (postfix : list item) (v : number) :
  compute_postfix_expresion libm postfix = Ok v ->
  exists stack, compute_loop libm postfix [] = Ok stack
                /\ compute_return stack = Ok v.
Proof.
  unfold compute_postfix_expresion.
  destruct (compute_loop libm postfix []) as [stack|e]; cbn; [|discriminate].
  intros H. now exists stack.
Qed.

(** C1 (the code departs from it).  An integer operand is pushed, but an
    operand that is a float is refused with [InvalidExpression]: after the
    assignment [x = 1 / 2] has stored 0.5, the expression [x] transforms to
    the postfix sequence holding that one operand, and its evaluation
    prints "Invalid expression". *)
Theorem float_operand_is_refused :
  (forall z stack,
      compute_token libm (Num (PInt z)) stack = Ok (PInt z :: stack))
  /\ (forall f stack,
         compute_token libm (Num (PFloat f)) stack = Raise InvalidExpression)
  /\ let self := self_after (process_assignment libm init "x = 1 / 2") in
     _variables self = [("x", PFloat half)]
     /\ transform_infix_to_postfix self ["x"] = Ok [Num (PFloat half)]
     /\ compute_postfix_expresion libm [Num (PFloat half)]
        = Raise InvalidExpression
     /\ process_expression libm self "x"
        = prints self (PrintText "Invalid expression").
Proof.
  repeat split.
Qed.


(** C3.  Division does not guard against a zero divisor: the postfix
    sequence of [1 / 0] makes the evaluator raise [ZeroDivisionError],
    which is none of the three classified kinds and escapes
    [process_expression]. *)
Theorem division_by_zero_escapes :
  (forall x, operator_truediv libm (PInt x) (PInt 0) = Raise ZeroDivisionError)
  /\ exists postfix,
       transform_infix_to_postfix init ["1"; "/"; "0"] = Ok postfix
       /\ compute_postfix_expresion libm postfix = Raise ZeroDivisionError
       /\ classified ZeroDivisionError = false
       /\ process_expression libm init "1 / 0" = escapes init ZeroDivisionError.
Proof.
  split; [reflexivity|].
  exists [Num (PInt 1); Num (PInt 0); Tok "/"]. repeat split.
Qed.

(** C5.  A successful evaluation returns the top of the stack in normal
    form: as an integer when it is one mathematically, and unchanged when
    it is not.  [10 / 2] gives the integer 5 and [1 / 2] the float that is
    exactly one half. *)
Theorem result_is_normalised :
  (forall postfix v,
      compute_postfix_expresion libm postfix = Ok v ->
      exists top rest,
        compute_loop libm postfix [] = Ok (top :: rest)
        /\ normal_form_of top v)
  /\ evaluate libm init ["10"; "/"; "2"] = Ok (PInt 5)
  /\ evaluate libm init ["1"; "/"; "2"] = Ok (PFloat half)
  /\ exists q, float_Q half = Some q /\ (q == 1 # 2)%Q.
Proof.
  split; [|repeat split].
  - intros postfix v H.
    destruct (compute_postfix_inv _ _ H) as (stack & Hloop & Hret).
    destruct stack as [|top rest]; [discriminate|].
    exists top, rest. split; [exact Hloop|].
    destruct top as [z|f|re im]; [| |discriminate].
    + destruct (compute_return_normal_form (PInt z) rest eq_refl)
        as (v' & Hv & Hn).
      rewrite Hv in Hret. now injection Hret as <-.
    + destruct (compute_return_normal_form (PFloat f) rest eq_refl)
        as (v' & Hv & Hn).
      rewrite Hv in Hret. now injection Hret as <-.
  - eexists. split; [reflexivity|]. reflexivity.
Qed.

End EvaluatorFacts.



Lemma result_is_normalised_witness :
  for_every_libm (fun libm =>
    let postfix := [Num (PInt 1); Num (PInt 2); Tok "/"] in
    compute_postfix_expresion libm postfix = Ok (PFloat half)
    /\ exists top rest,
         compute_loop libm postfix [] = Ok (top :: rest)
         /\ normal_form_of top (PFloat half)).
Proof.
  intros libm postfix. split; [reflexivity|].
  apply (proj1 (result_is_normalised libm) postfix (PFloat half)).
  reflexivity.
Defined.

(** *** The turns of the transformer *)

Lemma is_binary_operator_inv (token : string) :
  is_binary_operator token = true ->
  In token ["-"; "+"; "/"; "*"; "^"].
Proof.
  unfold is_binary_operator, dict_mem, binary_operators. cbn [dict_get].
  repeat match goal with
         | |- context [String.eqb token ?s] =>
             destruct (String.eqb_spec token s) as [->|_]; [cbn; tauto|]
         end.
  discriminate.
Qed.

Lemma is_unary_operator_inv (token : string) :
  is_unary_operator token = true -> token = "-" \/ token = "+".
Proof.
  unfold is_unary_operator, dict_mem, unary_operators. cbn [dict_get].
  repeat match goal with
         | |- context [String.eqb token ?s] =>
             destruct (String.eqb_spec token s) as [->|_]; [tauto|]
         end.
  discriminate.
Qed.

Lemma transform_token_inv (self : Calculator.t) (token : string)
    (l l' : locals) :
  transform_token self token l = Ok l' -> token_step self token l l'.
Proof.
  unfold transform_token.
  destruct (next_operator_is_binary l) eqn:Hflag; cbn [andb negb].
  - destruct (is_binary_operator token) eqn:Hbin.
    + destruct (pop_higher token (binary_operators_stack l)
                  (postfix_expression l)) as [[stack postfix]|e] eqn:Hpop;
        cbn [bind fst snd]; [|discriminate].
      intros H. injection H as <-. now apply step_binary.
    + rewrite !andb_false_r.
      destruct (String.eqb_spec token ")") as [->|_]; cbn [andb].
      * destruct (pop_to_paren (binary_operators_stack l)
                    (postfix_expression l)) as [[|top stack] postfix] eqn:Hpop;
          [discriminate|].
        intros H. injection H as <-. eapply step_close; eauto.
      * destruct (some_char is_ascii_letter token && some_char is_digit token);
          discriminate.
  - rewrite !andb_true_r.
    destruct (is_unary_operator token) eqn:Hun.
    { intros H. injection H as <-. now apply step_unary. }
    destruct (all_chars is_digit token) eqn:Hdig.
    { destruct (int_of_str token) as [z|e] eqn:Hint; cbn [bind];
        [|discriminate].
      destruct (apply_unary (unary_operators_stack l) (PInt z)) as [x|e] eqn:Hx;
        cbn [bind]; [|discriminate].
      intros H. injection H as <-. eapply step_number; eauto. }
    destruct (all_chars is_ascii_letter token) eqn:Hlet.
    { destruct (dict_get token (_variables self)) as [value|] eqn:Hget;
        [|discriminate].
      destruct (apply_unary (unary_operators_stack l) value) as [x|e] eqn:Hx;
        cbn [bind]; [|discriminate].
      intros H. injection H as <-. eapply step_variable; eauto. }
    destruct (String.eqb_spec token "(") as [->|_]; cbn [andb].
    { destruct (unary_operators_stack l) eqn:Hu; [|discriminate].
      intros H. injection H as <-. now apply step_open. }
    rewrite ?andb_false_r.
    destruct (some_char is_ascii_letter token && some_char is_digit token);
      discriminate.
Qed.



Lemma transform_token_sign (self : Calculator.t) (token : string)
    (l : locals) :
  next_operator_is_binary l = false ->
  token = "-" \/ token = "+" ->
  transform_token self token l
  = Ok {| binary_operators_stack := binary_operators_stack l;
          unary_operators_stack := token :: unary_operators_stack l;
          next_operator_is_binary := false;
          postfix_expression := postfix_expression l |}.
Proof.
  intros Hflag Hs. unfold transform_token. rewrite Hflag.
  destruct Hs as [-> | ->]; reflexivity.
Qed.



(** *** Unary signs *)



Lemma transform_loop_signs (self : Calculator.t) (signs rest : list string)
    (l : locals) :
  Forall (fun s => s = "-" \/ s = "+") signs ->
  next_operator_is_binary l = false ->
  transform_loop self (signs ++ rest) l
  = transform_loop self rest
      {| binary_operators_stack := binary_operators_stack l;
         unary_operators_stack := rev signs ++ unary_operators_stack l;
         next_operator_is_binary := false;
         postfix_expression := postfix_expression l |}.
Proof.
  intros H. revert l. induction H as [|s signs Hs _ IH]; intros l Hflag.
  - cbn. destruct l; cbn in *. now subst.
  - cbn [app transform_loop rev].
    rewrite (transform_token_sign self s l Hflag Hs). cbn [bind].
    rewrite IH by reflexivity. cbn.
    now rewrite <- app_assoc.
Qed.



(** *** Binary operators *)

Lemma dict_item_precedence (o : string) :
  is_binary_operator o = true -> dict_item o precedence = Ok (prec_of o).
Proof.
  intros H. apply is_binary_operator_inv in H. cbn [In] in H.
  decompose [or] H; subst; try contradiction; reflexivity.
Qed.

Lemma binary_operator_is_no_paren (o : string) :
  is_binary_operator o = true -> o <> "(".
Proof. intros H ->. discriminate. Qed.

(** Lines 127-133: what leaves the stack when a binary operator arrives. *)
Lemma pop_higher_spec (token : string) (stack : list string)
    (postfix : list item) :
  is_binary_operator token = true ->
  Forall (fun o => o = "(" \/ is_binary_operator o = true) stack ->
  exists popped rest,
    stack = popped ++ rest
    /\ pop_higher token stack postfix = Ok (rest, postfix ++ map Tok popped)
    /\ Forall (fun o => o <> "(" /\ prec_of token <= prec_of o) popped
    /\ match rest with
       | [] => True
       | top :: _ => top = "(" \/ prec_of top < prec_of token
       end.
Proof.
  intros Htok Hst. revert postfix.
  induction Hst as [|top stack Htop _ IH]; intros postfix.
  - exists [], []. cbn. rewrite app_nil_r. auto.
  - cbn [pop_higher]. destruct (String.eqb_spec top "(") as [->|Hne].
    + exists [], ("(" :: stack). cbn. rewrite app_nil_r. auto.
    + destruct Htop as [->|Htop]; [contradiction|].
      rewrite (dict_item_precedence _ Htok), (dict_item_precedence _ Htop).
      cbn [bind]. destruct (Z.leb_spec (prec_of token) (prec_of top)) as [Hle|Hlt].
      * destruct (IH (postfix ++ [Tok top])) as (popped & rest & -> & Hpop & Hall & Hrest).
        exists (top :: popped), rest. cbn [map app].
        rewrite Hpop, <- app_assoc. cbn [app]. repeat split; auto.
      * exists [], (top :: stack). cbn. rewrite app_nil_r. auto.
Qed.





(** *** Parentheses *)

Lemma transform_loop_app (self : Calculator.t) (tokens rest : list string)
    (l : locals) :
  transform_loop self (tokens ++ rest) l
  = (l' <- transform_loop self tokens l ;; transform_loop self rest l').
Proof.
  revert l. induction tokens as [|token tokens IH]; intros l; [reflexivity|].
  cbn [app transform_loop].
  destruct (transform_token self token l) as [l'|e]; cbn [bind];
    [apply IH|reflexivity].
Qed.

Lemma open_parens_cons (o : string) (stack : list string) :
  open_parens (o :: stack)
  = if String.eqb o "(" then S (open_parens stack) else open_parens stack.
Proof.
  unfold open_parens. cbn [count_occ].
  destruct (string_dec o "(") as [->|N].
  - reflexivity.
  - now destruct (String.eqb_spec o "(").
Qed.

Lemma pop_to_paren_spec (stack : list string) (postfix : list item) :
  match pop_to_paren stack postfix with
  | ([], _) => open_parens stack = 0%nat
  | (top :: rest, _) =>
      top = "(" /\ open_parens stack = S (open_parens rest)
      /\ exists popped, stack = popped ++ top :: rest
  end.
Proof.
  revert postfix. induction stack as [|o stack IH]; intros postfix.
  - reflexivity.
  - cbn [pop_to_paren]. rewrite open_parens_cons.
    destruct (String.eqb_spec o "(") as [->|N].
    + repeat split. now exists [].
    + specialize (IH (postfix ++ [Tok o])).
      destruct (pop_to_paren stack (postfix ++ [Tok o])) as [[|top rest] post'].
      * exact IH.
      * destruct IH as (-> & Hn & popped & ->). repeat split; auto.
        now exists (o :: popped).
Qed.

Lemma pop_higher_ok (token : string) (stack rest : list string)
    (postfix postfix' : list item) :
  pop_higher token stack postfix = Ok (rest, postfix') ->
  open_parens rest = open_parens stack
  /\ exists popped, stack = popped ++ rest.
Proof.
  revert postfix. induction stack as [|o stack IH]; intros postfix.
  - cbn. intros H. injection H as <- <-. split; [reflexivity|now exists []].
  - cbn [pop_higher]. destruct (String.eqb_spec o "(") as [->|N].
    + intros H. injection H as <- <-. split; [reflexivity|now exists []].
    + destruct (dict_item token precedence) as [p|e]; cbn [bind];
        [|discriminate].
      destruct (dict_item o precedence) as [q|e]; cbn [bind]; [|discriminate].
      destruct (p <=? q).
      * intros H. apply IH in H as (Hn & popped & ->).
        rewrite open_parens_cons. destruct (String.eqb_spec o "(");
          [contradiction|].
        split; [exact Hn|]. now exists (o :: popped).
      * intros H. injection H as <- <-. split; [reflexivity|now exists []].
Qed.


Lemma token_step_well_formed (self : Calculator.t) (token : string)
    (l l' : locals) :
  token_step self token l l' -> well_formed l -> well_formed l'.
Proof.
  intros H [Hb Hu]. destruct H; split;
    cbn [binary_operators_stack unary_operators_stack]; auto.
  - destruct (pop_higher_ok _ _ _ _ _ H1) as (_ & popped & E).
    rewrite E in Hb. apply Forall_app in Hb as [_ Hb]. auto.
  - pose proof (pop_to_paren_spec (binary_operators_stack l)
                  (postfix_expression l)) as Hs.
    rewrite H1 in Hs. destruct Hs as (_ & _ & popped & E).
    rewrite E in Hb. apply Forall_app in Hb as [_ Hb].
    now inversion Hb.
Qed.

Lemma well_formed_locals0 : well_formed locals0.
Proof. split; constructor. Qed.










(** C8.  A [(] that arrives where an operand is expected while a unary
    operator is pending makes the transformer fail with
    [InvalidExpression], as in [- ( 3 + 2 )]. *)
Theorem unary_before_parenthesis_fails (self : Calculator.t) :
  (forall l,
      next_operator_is_binary l = false ->
      unary_operators_stack l <> [] ->
      transform_token self "(" l = Raise InvalidExpression)
  /\ (forall before after l,
         transform_loop self before locals0 = Ok l ->
         next_operator_is_binary l = false ->
         unary_operators_stack l <> [] ->
         transform_infix_to_postfix self (before ++ "(" :: after)
         = Raise InvalidExpression)
  /\ transform_infix_to_postfix self ["-"; "("; "3"; "+"; "2"; ")"]
     = Raise InvalidExpression.
Proof.
  assert (Hstep : forall l,
             next_operator_is_binary l = false ->
             unary_operators_stack l <> [] ->
             transform_token self "(" l = Raise InvalidExpression).
  { intros l Hflag Hu. unfold transform_token. rewrite Hflag. cbn.
    destruct (unary_operators_stack l); [contradiction|reflexivity]. }
  split; [exact Hstep|]. split; [|reflexivity].
  intros before after l Hl Hflag Hu. unfold transform_infix_to_postfix.
  rewrite transform_loop_app, Hl. cbn [bind transform_loop].
  now rewrite Hstep.
Qed.

Lemma unary_before_parenthesis_fails_witness :
  transform_loop init ["2"; "*"; "-"; "+"] locals0
  = Ok {| binary_operators_stack := ["*"];
          unary_operators_stack := ["+"; "-"];
          next_operator_is_binary := false;
          postfix_expression := [Num (PInt 2)] |}
  /\ transform_infix_to_postfix init
       (["2"; "*"; "-"; "+"] ++ "(" :: ["3"; ")"])
     = Raise InvalidExpression.
Proof.
  split; [reflexivity|].
  apply (proj1 (proj2 (unary_before_parenthesis_fails init))
           ["2"; "*"; "-"; "+"] ["3"; ")"]
           {| binary_operators_stack := ["*"];
              unary_operators_stack := ["+"; "-"];
              next_operator_is_binary := false;
              postfix_expression := [Num (PInt 2)] |});
    [reflexivity|reflexivity|discriminate].
Defined.

(** *** The Variable Store *)

Lemma dict_get_set {V : Type} (k k' : string) (v : V) (d : dict V) :
  dict_get k' (dict_set k v d)
  = if String.eqb k' k then Some v else dict_get k' d.
Proof.
  induction d as [|[k0 v0] d IH]; cbn [dict_set dict_get].
  - reflexivity.
  - destruct (String.eqb_spec k k0) as [->|N]; cbn [dict_get].
    + now destruct (String.eqb_spec k' k0).
    + rewrite IH. destruct (String.eqb_spec k' k0) as [->|N'].
      * destruct (String.eqb_spec k0 k); [congruence|reflexivity].
      * reflexivity.
Qed.

(** Assignment keeps the insertion order: a key that is present stays
    where it is, a new one goes last. *)
Lemma dict_set_keys {V : Type} (k : string) (v : V) (d : dict V) :
  map fst (dict_set k v d)
  = if dict_mem k d then map fst d else map fst d ++ [k].
Proof.
  unfold dict_mem. induction d as [|[k0 v0] d IH]; cbn [dict_set dict_get map].
  - reflexivity.
  - destruct (String.eqb_spec k k0) as [->|N]; cbn [map fst].
    + reflexivity.
    + rewrite IH. now destruct (dict_get k d).
Qed.

Section SessionFacts.

Variable libm : c_library.

Lemma process_expression_self (self : Calculator.t) (line : string) :
  self_after (process_expression libm self line) = self.
Proof.
  unfold process_expression.
  destruct (evaluate libm self (split (remove_extra_spaces line)))
    as [value|[]]; reflexivity.
Qed.

Lemma process_command_self (self : Calculator.t) (line : string) :
  self_after (process_command self line) = self.
Proof.
  unfold process_command.
  destruct (String.eqb line "/help"); [reflexivity|].
  destruct (String.eqb line "/variables"); reflexivity.
Qed.

(** Every way [process_assignment] can end. *)
Lemma process_assignment_cases (self : Calculator.t) (line : string) :
  self_after (process_assignment libm self line) = self
  \/ exists identifier expression value,
       assignment_of line identifier expression
       /\ all_chars is_ascii_letter identifier = true
       /\ evaluate libm self (split expression) = Ok value
       /\ process_assignment libm self line
          = {| self_after :=
                 {| _variables :=
                      dict_set identifier value (_variables self) |};
               printed := [];
               escaped := None |}.
Proof.
  unfold process_assignment, assignment_of.
  destruct (split_once " = " (remove_extra_spaces line))
    as [|identifier [|expression [|]]]; try (left; reflexivity).
  destruct (all_chars is_ascii_letter identifier) eqn:Hid;
    [|left; reflexivity].
  destruct (evaluate libm self (split expression)) as [value|[]] eqn:Hev;
    try (left; reflexivity).
  right. now exists identifier, expression, value.
Qed.

(** C9.  Evaluating an expression or running a command leaves the
    Variable Store as it was, and so does an assignment whose identifier
    is refused or whose right-hand side does not evaluate.  An assignment
    that succeeds binds its identifier to the value and changes no other
    binding nor the order of the identifiers.  Whatever the line, the
    store changes only that way. *)
Theorem store_changes_only_by_assignment (self : Calculator.t)
    (line : string) :
  self_after (process_expression libm self line) = self
  /\ self_after (process_command self line) = self
  /\ (forall identifier expression,
         assignment_of line identifier expression ->
         (all_chars is_ascii_letter identifier = false ->
          process_assignment libm self line
          = prints self (PrintText "Invalid identifier"))
         /\ (forall e,
                evaluate libm self (split expression) = Raise e ->
                self_after (process_assignment libm self line) = self)
         /\ (forall value,
                all_chars is_ascii_letter identifier = true ->
                evaluate libm self (split expression) = Ok value ->
                let store := _variables self in
                let store' :=
                  _variables (self_after (process_assignment libm self line)) in
                store' = dict_set identifier value store
                /\ dict_get identifier store' = Some value
                /\ (forall other,
                       other <> identifier ->
                       dict_get other store' = dict_get other store)
                /\ map fst store'
                   = if dict_mem identifier store then map fst store
                     else map fst store ++ [identifier]))
  /\ (self_after (process_line libm self line) = self
      \/ exists identifier expression value,
           assignment_of line identifier expression
           /\ all_chars is_ascii_letter identifier = true
           /\ evaluate libm self (split expression) = Ok value
           /\ _variables (self_after (process_line libm self line))
              = dict_set identifier value (_variables self)).
Proof.
  split; [apply process_expression_self|].
  split; [apply process_command_self|].
  split.
  - intros identifier expression Ha. unfold assignment_of in Ha.
    unfold process_assignment. rewrite Ha. split; [|split].
    + now intros ->.
    + intros e He. rewrite He.
      destruct (all_chars is_ascii_letter identifier); [|reflexivity].
      now destruct e.
    + intros value Hid Hev. cbv zeta.
      rewrite Hid, Hev. cbn [self_after _variables].
      split; [reflexivity|]. split; [|split].
      * now rewrite dict_get_set, String.eqb_refl.
      * intros other Hne. rewrite dict_get_set.
        now destruct (String.eqb_spec other identifier).
      * apply dict_set_keys.
  - unfold process_line.
    destruct (prefix "/" line); [left; apply process_command_self|].
    destruct (some_char (Ascii.eqb "=") line).
    + destruct (process_assignment_cases self line)
        as [H|(identifier & expression & value & Ha & Hid & Hev & H)].
      * now left.
      * right. exists identifier, expression, value. now rewrite H.
    + destruct line; [left; reflexivity|].
      left. apply process_expression_self.
Qed.

(** *** Determinism *)



End SessionFacts.

Lemma store_changes_only_by_assignment_witness :
  for_every_libm (fun libm =>
    let self := {| _variables := [("y", PInt 1); ("x", PInt 2)] |} in
    assignment_of "y=x*(3+4)" "y" "x *  ( 3 + 4 ) "
    /\ evaluate libm self (split "x *  ( 3 + 4 ) ") = Ok (PInt 14)
    /\ _variables (self_after (process_assignment libm self "y=x*(3+4)"))
       = [("y", PInt 14); ("x", PInt 2)]
    /\ assignment_of "y = z" "y" "z"
    /\ evaluate libm self (split "z") = Raise UnknownVariable
    /\ self_after (process_assignment libm self "y = z") = self).
Proof.
  intros libm self.
  assert (Ha : assignment_of "y=x*(3+4)" "y" "x *  ( 3 + 4 ) ") by reflexivity.
  assert (Hb : assignment_of "y = z" "y" "z") by reflexivity.
  split; [exact Ha|]. split; [reflexivity|]. split.
  - exact (proj1 (proj2 (proj2 (proj1 (proj2 (proj2
             (store_changes_only_by_assignment libm self "y=x*(3+4)")))
             "y" "x *  ( 3 + 4 ) " Ha)) (PInt 14) eq_refl eq_refl)).
  - split; [exact Hb|]. split; [reflexivity|].
    exact (proj1 (proj2 (proj1 (proj2 (proj2
             (store_changes_only_by_assignment libm self "y = z")))
             "y" "z" Hb)) UnknownVariable eq_refl).
Defined.


(** *** The postfix sequences the transformer produces *)

Lemma operands_app (p q : list item) :
  operands (p ++ q) = (operands p + operands q)%nat.
Proof. unfold operands. now rewrite filter_app, length_app. Qed.

Lemma operators_app (p q : list item) :
  operators (p ++ q) = (operators p + operators q)%nat.
Proof. unfold operators. now rewrite filter_app, length_app. Qed.

Lemma pending_app (p q : list string) :
  pending (p ++ q) = (pending p + pending q)%nat.
Proof. unfold pending. now rewrite filter_app, length_app. Qed.

Lemma operands_tags (stack : list string) : operands (map Tok stack) = 0%nat.
Proof. induction stack; [reflexivity|exact IHstack]. Qed.

Lemma operators_tags (stack : list string) :
  operators (map Tok stack) = List.length stack.
Proof.
  induction stack as [|o stack IH]; [reflexivity|].
  unfold operators in *. cbn. now rewrite IH.
Qed.

Lemma pending_no_paren (stack : list string) :
  Forall (fun o => o <> "(") stack -> pending stack = List.length stack.
Proof.
  induction 1 as [|o stack Ho _ IH]; [reflexivity|].
  unfold pending in *. cbn [filter].
  destruct (String.eqb_spec o "("); [contradiction|]. cbn. now rewrite IH.
Qed.

Lemma pop_to_paren_output (stack rest : list string)
    (postfix postfix' : list item) :
  pop_to_paren stack postfix = (rest, postfix') ->
  exists popped,
    stack = popped ++ rest
    /\ postfix' = postfix ++ map Tok popped
    /\ Forall (fun o => o <> "(") popped.
Proof.
  revert postfix. induction stack as [|o stack IH]; intros postfix.
  - cbn. intros [= <- <-]. exists []. cbn. rewrite app_nil_r. auto.
  - cbn [pop_to_paren]. destruct (String.eqb_spec o "(") as [->|N].
    + intros [= <- <-]. exists []. cbn. rewrite app_nil_r. auto.
    + intros H. apply IH in H as (popped & -> & -> & Hp).
      exists (o :: popped). cbn [map app]. rewrite <- app_assoc.
      repeat split. now constructor.
Qed.

Lemma token_step_operands (self : Calculator.t) (token : string)
    (l l' : locals) :
  token_step self token l l' ->
  well_formed l -> operands_match l -> operands_match l'.
Proof.
  unfold operands_match. intros H [Hwf _] Hm.
  destruct H as [stack postfix Hflag Hbin Hpop|Hflag Hun|z x Hflag _ _ _ _
                |value x Hflag _ _ _ _ _|Hflag -> Hu
                |top stack postfix Hflag -> Hpop];
    cbn [binary_operators_stack postfix_expression next_operator_is_binary];
    rewrite Hflag in Hm.
  - destruct (pop_higher_spec token _ (postfix_expression l) Hbin Hwf)
      as (popped & rest & Hst & Hpop' & Hall & _).
    rewrite Hpop in Hpop'. injection Hpop' as -> ->.
    rewrite Hst, pending_app in Hm.
    rewrite (pending_no_paren popped) in Hm
      by (eapply Forall_impl; [|exact Hall]; now intros o [Ho _]).
    rewrite operands_app, operators_app, operands_tags, operators_tags.
    change (token :: rest) with ([token] ++ rest). rewrite pending_app.
    rewrite (pending_no_paren [token])
      by (constructor; [now apply binary_operator_is_no_paren|constructor]).
    cbn [List.length]. lia.
  - lia.
  - rewrite operands_app, operators_app. cbn. lia.
  - rewrite operands_app, operators_app. cbn. lia.
  - change ("(" :: binary_operators_stack l)
      with (["("] ++ binary_operators_stack l).
    rewrite pending_app. cbn. lia.
  - pose proof (pop_to_paren_spec (binary_operators_stack l)
                  (postfix_expression l)) as Hs.
    rewrite Hpop in Hs. destruct Hs as (-> & _ & _).
    apply pop_to_paren_output in Hpop as (popped & Hst & -> & Hp).
    rewrite Hst, pending_app, (pending_no_paren popped Hp) in Hm.
    change ("(" :: stack) with (["("] ++ stack) in Hm.
    rewrite pending_app in Hm. cbn in Hm.
    rewrite operands_app, operators_app, operands_tags, operators_tags. lia.
Qed.

Lemma transform_loop_operands (self : Calculator.t) (tokens : list string)
    (l l' : locals) :
  transform_loop self tokens l = Ok l' ->
  well_formed l -> operands_match l ->
  well_formed l' /\ operands_match l'.
Proof.
  revert l. induction tokens as [|token tokens IH]; intros l.
  - cbn. intros [= <-]. auto.
  - cbn [transform_loop].
    destruct (transform_token self token l) as [l1|e] eqn:Ht; cbn [bind];
      [|discriminate].
    apply transform_token_inv in Ht. intros H Hwf Hm.
    apply (IH l1 H).
    + exact (token_step_well_formed _ _ _ _ Ht Hwf).
    + exact (token_step_operands _ _ _ _ Ht Hwf Hm).
Qed.

Lemma compute_loop_length (libm : c_library) (postfix : list item)
    (stack stack' : list number) :
  compute_loop libm postfix stack = Ok stack' ->
  (List.length stack' + operators postfix = List.length stack + operands postfix)%nat.
Proof.
  revert stack. induction postfix as [|i postfix IH]; intros stack.
  - cbn. intros [= <-]. reflexivity.
  - cbn [compute_loop].
    destruct (compute_token libm i stack) as [stack1|e] eqn:Ht; cbn [bind];
      [|discriminate].
    intros H. apply IH in H.
    change (i :: postfix) with ([i] ++ postfix).
    rewrite operands_app, operators_app.
    destruct i as [s|x]; cbn [compute_token] in Ht.
    + destruct (dict_get s binary_operators) as [f|]; [|discriminate].
      destruct stack as [|b [|a rest]]; try discriminate.
      destruct (f libm a b) as [r|e]; [|discriminate].
      injection Ht as <-. cbn in *. lia.
    + destruct (isinstance_int x); [|discriminate].
      injection Ht as <-. cbn in *. lia.
Qed.

(** On a postfix sequence that comes from the transformer the evaluator
    never ends with more than one value on its stack. *)
Lemma transformed_postfix_leaves_one_value (libm : c_library)
    (self : Calculator.t) (tokens : list string) (postfix : list item)
    (stack : list number) :
  transform_infix_to_postfix self tokens = Ok postfix ->
  compute_loop libm postfix [] = Ok stack ->
  (List.length stack <= 1)%nat.
Proof.
  unfold transform_infix_to_postfix.
  destruct (transform_loop self tokens locals0) as [l|e] eqn:Hl; cbn [bind];
    [|discriminate].
  destruct (transform_loop_operands _ _ _ _ Hl well_formed_locals0 eq_refl)
    as [_ Hm].
  unfold transform_return.
  destruct (pop_to_paren (binary_operators_stack l) (postfix_expression l))
    as [[|top rest] post'] eqn:Hpop; [|discriminate].
  intros [= <-] Hc.
  apply pop_to_paren_output in Hpop as (popped & Hst & -> & Hp).
  rewrite app_nil_r in Hst. unfold operands_match in Hm.
  rewrite Hst, (pending_no_paren popped Hp) in Hm.
  apply compute_loop_length in Hc.
  rewrite operands_app, operators_app, operands_tags, operators_tags in Hc.
  cbn [List.length] in Hc. destruct (next_operator_is_binary l); lia.
Qed.

(** *** Worked examples

    The example of the help text and the expressions the specification
    lists, through the whole pipeline. *)
Lemma worked_examples :
  for_every_libm (fun libm =>
    let value line :=
      evaluate libm init (split (remove_extra_spaces line)) in
    value " - -3-+- 8 *( ( 2^ 2 + 3 ^1)* 2 + 1) + - 6 / (3^3 - 8 *3 )"
    = Ok (PInt 121)
    /\ value "2 + 3 * 4" = Ok (PInt 14)
    /\ value "(2 + 3) * 4" = Ok (PInt 20)
    /\ value "3 4" = Raise InvalidExpression
    /\ value "x + 1" = Raise UnknownVariable
    /\ value "a1 + 2" = Raise InvalidIdentifier
    /\ let self := self_after (process_assignment libm init "x = 4 + 5") in
       _variables self = [("x", PInt 9)]
       /\ process_expression libm self "x * 2"
          = prints self (PrintValue (PInt 18))
       /\ printed (run libm init
                     ["x = 4 + 5"; "x * 2"; "/variables"; "/exit"])
          = [PrintValue (PInt 18); PrintVariables [("x", PInt 9)];
             PrintText "Bye!"]).
Proof.
  intros libm value. repeat split.
Qed.

(* ================================================================== *)
(** ** Further properties of the program *)
(* ================================================================== *)

(** *** The tokenizer: [remove_extra_spaces] and [split] *)

Lemma operator_is_no_space (c : ascii) :
  is_operator_char c = true -> is_space c = false.
Proof.
  unfold is_operator_char, supported_operators. cbn [existsb].
  repeat match goal with
         | |- context [Ascii.eqb c ?d] =>
             destruct (Ascii.eqb_spec c d) as [->|_]; [reflexivity|]
         end.
  discriminate.
Qed.

Lemma space_is_no_operator (c : ascii) :
  is_space c = true -> is_operator_char c = false.
Proof.
  intros H. destruct (is_operator_char c) eqn:E; [|reflexivity].
  apply operator_is_no_space in E. congruence.
Qed.

Lemma split_from_flush (word : list ascii) (s : string) :
  split_from word s
  = match s with
    | EmptyString => flush word
    | String c r =>
        if is_space c then flush word ++ split_from [] r
        else split_from (c :: word) r
    end.
Proof. destruct s; reflexivity. Qed.

Lemma lex_from_ahead (word : list ascii) (s : string) :
  operator_ahead s = true ->
  lex_from word s = flush word ++ lex_from [] s.
Proof.
  destruct s as [|c r]; [discriminate|]. cbn [operator_ahead lex_from flush].
  destruct (is_space c) eqn:Hs.
  - intros _. now rewrite (space_is_no_operator _ Hs).
  - intros ->. reflexivity.
Qed.

Lemma split_sub_operators (s : string) (after_operator : bool)
    (word : list ascii) :
  (after_operator = true -> word = []) ->
  split_from word (sub_operators after_operator s) = lex_from word s.
Proof.
  revert after_operator word.
  induction s as [|c r IH]; intros b word Hb; [reflexivity|].
  cbn [sub_operators lex_from].
  destruct (is_operator_char c) eqn:Hop.
  - rewrite (split_from_flush word). cbn [is_space].
    replace (is_space " ") with true by reflexivity.
    rewrite (split_from_flush []), (operator_is_no_space _ Hop).
    rewrite (split_from_flush [c]).
    replace (is_space " ") with true by reflexivity.
    rewrite (IH true []) by reflexivity. reflexivity.
  - destruct (is_space c) eqn:Hs.
    + destruct b.
      * rewrite (Hb eq_refl). now rewrite (IH true []).
      * destruct (operator_ahead r) eqn:Ha.
        -- rewrite (IH false word) by discriminate.
           now apply lex_from_ahead.
        -- rewrite (split_from_flush word), Hs.
           now rewrite (IH false []) by discriminate.
    + rewrite (split_from_flush word), Hs.
      now rewrite (IH false (c :: word)) by discriminate.
Qed.

Lemma lex_from_lstrip (s : string) : lex_from [] (lstrip s) = lex_from [] s.
Proof.
  induction s as [|c r IH]; [reflexivity|]. cbn [lstrip].
  destruct (is_space c) eqn:Hs; [|reflexivity].
  cbn [lex_from]. now rewrite (space_is_no_operator _ Hs), Hs, IH.
Qed.

Lemma lex_from_rstrip (s : string) (word : list ascii) :
  lex_from word (rstrip s) = lex_from word s.
Proof.
  revert word. induction s as [|c r IH]; intros word; [reflexivity|].
  cbn [rstrip]. destruct (rstrip r) as [|c' r'] eqn:Hr.
  - assert (Hall : forall w, lex_from w r = flush w)
      by (intros w; now rewrite <- IH).
    destruct (is_space c) eqn:Hs.
    + cbn [lex_from]. rewrite (space_is_no_operator _ Hs), Hs, Hall.
      cbn [flush]. now rewrite app_nil_r.
    + cbn [lex_from]. rewrite Hs, !Hall.
      now destruct (is_operator_char c).
  - cbn [lex_from]. rewrite <- !IH.
    now destruct (is_operator_char c), (is_space c).
Qed.

Lemma tokens_of_lex_from (line : string) : tokens_of line = lex_from [] line.
Proof.
  unfold tokens_of, split, remove_extra_spaces, strip.
  rewrite split_sub_operators by discriminate.
  now rewrite lex_from_rstrip, lex_from_lstrip.
Qed.

(** X1.  Stripping the line, putting one space around every operator
    with the regular expression and splitting on white space is lexing:
    the tokens are the operator characters, each on its own, and the runs
    of other characters between them and the white space, in order. *)
Theorem tokenizer_is_a_lexer (line : string) :
  split (remove_extra_spaces line) = lex line.
Proof. exact (tokens_of_lex_from line). Qed.

Lemma all_chars_string_of_list (p : ascii -> bool) (l : list ascii) :
  all_chars p (string_of_list_ascii l) = forallb p l.
Proof. induction l as [|c l IH]; [reflexivity|]. cbn. now rewrite IH. Qed.

Lemma forallb_reverse {A : Type} (p : A -> bool) (l : list A) :
  forallb p (rev l) = forallb p l.
Proof.
  induction l as [|a l IH]; [reflexivity|].
  cbn [rev forallb]. rewrite forallb_app, IH. cbn. now rewrite andb_true_r, andb_comm.
Qed.

Lemma flush_word_tokens (word : list ascii) :
  forallb (fun c => negb (is_operator_char c) && negb (is_space c)) word
  = true ->
  Forall (fun token => operator_token token \/ word_token token) (flush word).
Proof.
  intros H. destruct word as [|c word]; [constructor|].
  constructor; [|constructor]. right. split.
  - cbn [rev]. destruct (rev word); discriminate.
  - rewrite all_chars_string_of_list, forallb_reverse. exact H.
Qed.

Lemma lex_from_tokens (s : string) (word : list ascii) :
  forallb (fun c => negb (is_operator_char c) && negb (is_space c)) word
  = true ->
  Forall (fun token => operator_token token \/ word_token token)
    (lex_from word s).
Proof.
  revert word. induction s as [|c r IH]; intros word Hw.
  - now apply flush_word_tokens.
  - cbn [lex_from]. destruct (is_operator_char c) eqn:Hop.
    + apply Forall_app. split; [now apply flush_word_tokens|].
      constructor; [|now apply IH]. left. now exists c.
    + destruct (is_space c) eqn:Hs.
      * apply Forall_app. split; [now apply flush_word_tokens|now apply IH].
      * apply IH. cbn [forallb]. now rewrite Hop, Hs.
Qed.

(** X2.  Whatever the line, each of its tokens is a single operator
    character or a run, not empty, of characters that are neither
    operators nor white space; in particular no token is empty. *)
Theorem tokens_are_operators_or_words (line : string) :
  Forall (fun token => operator_token token \/ word_token token)
    (split (remove_extra_spaces line))
  /\ Forall (fun token => token <> "") (split (remove_extra_spaces line)).
Proof.
  fold (tokens_of line). rewrite tokens_of_lex_from.
  assert (H : Forall (fun token => operator_token token \/ word_token token)
                (lex_from [] line)) by (now apply lex_from_tokens).
  split; [exact H|].
  eapply Forall_impl; [|exact H].
  intros token [(c & _ & ->)|[Hne _]]; [discriminate|exact Hne].
Qed.

(** *** What the transformer returns and raises *)

Lemma popped_tags (popped rest : list string) :
  Forall (fun o => o = "(" \/ is_binary_operator o = true) (popped ++ rest) ->
  Forall (fun o => o <> "(") popped ->
  Forall postfix_item (map Tok popped).
Proof.
  intros Hall Hp. apply Forall_app in Hall as [Hall _].
  induction Hp as [|o popped Ho _ IH]; [constructor|].
  inversion Hall as [|? ? [E|E] Hrest]; subst; [contradiction|].
  constructor; [exact E|now apply IH].
Qed.

Lemma token_step_postfix (self : Calculator.t) (token : string)
    (l l' : locals) :
  token_step self token l l' ->
  well_formed l ->
  Forall postfix_item (postfix_expression l) ->
  Forall postfix_item (postfix_expression l').
Proof.
  intros H [Hwf _] Hp.
  destruct H as [stack postfix Hflag Hbin Hpop|Hflag Hun|z x Hflag _ _ _ _
                |value x Hflag _ _ _ _ _|Hflag -> Hu
                |top stack postfix Hflag -> Hpop];
    cbn [postfix_expression]; auto.
  - destruct (pop_higher_spec token _ (postfix_expression l) Hbin Hwf)
      as (popped & rest & Hst & Hpop' & Hall & _).
    rewrite Hpop in Hpop'. injection Hpop' as -> ->.
    apply Forall_app. split; [exact Hp|].
    rewrite Hst in Hwf. apply (popped_tags popped rest Hwf).
    eapply Forall_impl; [|exact Hall]. now intros o [Ho _].
  - apply Forall_app. split; [exact Hp|]. repeat constructor.
  - apply Forall_app. split; [exact Hp|]. repeat constructor.
  - apply pop_to_paren_output in Hpop as (popped & Hst & -> & Hno).
    apply Forall_app. split; [exact Hp|].
    rewrite Hst in Hwf. exact (popped_tags popped _ Hwf Hno).
Qed.

Lemma transform_loop_postfix (self : Calculator.t) (tokens : list string)
    (l l' : locals) :
  transform_loop self tokens l = Ok l' ->
  well_formed l ->
  Forall postfix_item (postfix_expression l) ->
  well_formed l' /\ Forall postfix_item (postfix_expression l').
Proof.
  revert l. induction tokens as [|token tokens IH]; intros l.
  - cbn. intros [= <-]. auto.
  - cbn [transform_loop].
    destruct (transform_token self token l) as [l1|e] eqn:Ht; cbn [bind];
      [|discriminate].
    apply transform_token_inv in Ht. intros H Hwf Hp.
    apply (IH l1 H).
    + exact (token_step_well_formed _ _ _ _ Ht Hwf).
    + exact (token_step_postfix _ _ _ _ Ht Hwf Hp).
Qed.

(** X3.  A postfix sequence the transformer returns holds numbers and
    tags of binary operators only: no parenthesis, no unary operator and
    no other token reaches the evaluator. *)
Theorem transformer_emits_numbers_and_operators (self : Calculator.t)
    (tokens : list string) (postfix : list item) :
  transform_infix_to_postfix self tokens = Ok postfix ->
  Forall postfix_item postfix
  /\ ~ In (Tok "(") postfix /\ ~ In (Tok ")") postfix.
Proof.
  unfold transform_infix_to_postfix.
  destruct (transform_loop self tokens locals0) as [l|e] eqn:Hl; cbn [bind];
    [|discriminate].
  destruct (transform_loop_postfix _ _ _ _ Hl well_formed_locals0
              (Forall_nil _)) as [[Hwf _] Hp].
  unfold transform_return.
  destruct (pop_to_paren (binary_operators_stack l) (postfix_expression l))
    as [[|top rest] post'] eqn:Hpop; [|discriminate].
  intros [= <-].
  apply pop_to_paren_output in Hpop as (popped & Hst & -> & Hno).
  assert (Hall : Forall postfix_item (postfix_expression l ++ map Tok popped)).
  { apply Forall_app. split; [exact Hp|].
    rewrite Hst in Hwf. exact (popped_tags popped _ Hwf Hno). }
  split; [exact Hall|].
  rewrite Forall_forall in Hall.
  split; intros Hin; apply Hall in Hin; discriminate.
Qed.

Lemma transformer_emits_numbers_and_operators_witness :
  transform_infix_to_postfix init ["("; "-"; "1"; "+"; "2"; ")"; "*"; "3"]
  = Ok [Num (PInt (-1)); Num (PInt 2); Tok "+"; Num (PInt 3); Tok "*"]
  /\ Forall postfix_item
       [Num (PInt (-1)); Num (PInt 2); Tok "+"; Num (PInt 3); Tok "*"].
Proof.
  split; [reflexivity|].
  exact (proj1 (transformer_emits_numbers_and_operators init
                  ["("; "-"; "1"; "+"; "2"; ")"; "*"; "3"] _ eq_refl)).
Defined.





(** *** Parenthesised expressions *)






Lemma compute_loop_expr (libm : c_library) (e : expr) :
  expr_ok e ->
  forall rest stack,
    compute_loop libm (postfix_of e ++ rest) stack
    = (v <- value_of libm e ;; compute_loop libm rest (v :: stack)).
Proof.
  induction e as [token|o e1 IH1 e2 IH2]; intros Hok rest stack.
  - reflexivity.
  - destruct Hok as (Ho & Hok1 & Hok2).
    cbn [postfix_of value_of]. rewrite <- !app_assoc.
    rewrite (IH1 Hok1). destruct (value_of libm e1) as [a|x]; cbn [bind];
      [|reflexivity].
    rewrite (IH2 Hok2). destruct (value_of libm e2) as [b|x]; cbn [bind];
      [|reflexivity].
    cbn [app compute_loop compute_token]. unfold binary_function, dict_item.
    apply is_binary_operator_inv in Ho. cbn [In] in Ho.
    assert (E : exists f, dict_get o binary_operators = Some f).
    { decompose [or] Ho; subst; try contradiction; eexists; reflexivity. }
    destruct E as (f & ->). cbn [bind].
    now destruct (f libm a b).
Qed.



(** X6.  The evaluator computes the value of an expression from its
    postfix form: the value of the left operand, then of the right one,
    then the operator applied to both, the first error met being the one
    raised. *)
Theorem evaluator_computes_expression_value (libm : c_library) (e : expr) :
  expr_ok e ->
  compute_postfix_expresion libm (postfix_of e)
  = (v <- value_of libm e ;; compute_return [v]).
Proof.
  intros Hok. unfold compute_postfix_expresion.
  rewrite <- (app_nil_r (postfix_of e)), (compute_loop_expr libm e Hok).
  now destruct (value_of libm e).
Qed.

Lemma evaluator_computes_expression_value_witness :
  for_every_libm (fun libm =>
    expr_ok (Bin "/" (Lit "1") (Bin "-" (Lit "2") (Lit "2")))
    /\ compute_postfix_expresion libm
         [Num (PInt 1); Num (PInt 2); Num (PInt 2); Tok "-"; Tok "/"]
       = Raise ZeroDivisionError).
Proof.
  intros libm.
  assert (H : expr_ok (Bin "/" (Lit "1") (Bin "-" (Lit "2") (Lit "2")))).
  { cbn. repeat split; discriminate. }
  split; [exact H|].
  exact (evaluator_computes_expression_value libm _ H).
Defined.





(** *** Precedence *)




(** *** What the evaluator accepts *)

Lemma compute_loop_items (libm : c_library) (postfix : list item)
    (stack stack' : list number) :
  compute_loop libm postfix stack = Ok stack' ->
  Forall evaluable_item postfix.
Proof.
  revert stack. induction postfix as [|i postfix IH]; intros stack;
    [constructor|].
  cbn [compute_loop].
  destruct (compute_token libm i stack) as [stack1|e] eqn:Ht; cbn [bind];
    [|discriminate].
  intros H. constructor; [|exact (IH _ H)].
  destruct i as [o|x]; cbn [compute_token evaluable_item] in *.
  - unfold is_binary_operator, dict_mem.
    now destruct (dict_get o binary_operators).
  - now destruct (isinstance_int x).
Qed.

(** X9.  The evaluator returns a value only for a sequence in which every
    number is an [int] and every string is a binary operator: one float
    among the operands, as a variable bound to 0.5 gives, and the
    evaluation raises. *)
Theorem evaluator_accepts_ints_and_operators (libm : c_library)
    (postfix : list item) (v : number) :
  compute_postfix_expresion libm postfix = Ok v ->
  Forall evaluable_item postfix
  /\ forall x, In (Num x) postfix -> exists z, x = PInt z.
Proof.
  intros H. apply compute_postfix_inv in H as (stack & Hloop & _).
  apply compute_loop_items in Hloop. split; [exact Hloop|].
  intros x Hin. rewrite Forall_forall in Hloop. apply Hloop in Hin.
  destruct x as [z| |]; try discriminate. now exists z.
Qed.

Lemma evaluator_accepts_ints_and_operators_witness :
  for_every_libm (fun libm =>
    compute_postfix_expresion libm [Num (PInt 3); Num (PInt 4); Tok "*"]
    = Ok (PInt 12)
    /\ Forall evaluable_item [Num (PInt 3); Num (PInt 4); Tok "*"]).
Proof.
  intros libm. split; [reflexivity|].
  exact (proj1 (evaluator_accepts_ints_and_operators libm
                  [Num (PInt 3); Num (PInt 4); Tok "*"] (PInt 12) eq_refl)).
Defined.

(** *** Expressions without an operand *)

Lemma lex_from_spaces (s : string) :
  all_chars is_space s = true -> lex_from [] s = [].
Proof.
  induction s as [|c r IH]; [reflexivity|]. cbn [all_chars lex_from].
  intros H. apply andb_true_iff in H as [Hc Hr].
  now rewrite (space_is_no_operator _ Hc), Hc, IH.
Qed.

Lemma spaces_have_no_equal_sign (s : string) :
  all_chars is_space s = true -> some_char (Ascii.eqb "=") s = false.
Proof.
  induction s as [|c r IH]; [reflexivity|]. cbn [all_chars some_char].
  intros H. apply andb_true_iff in H as [Hc Hr]. rewrite (IH Hr).
  destruct (Ascii.eqb_spec "="%char c) as [<-|_]; [discriminate|reflexivity].
Qed.

(** X10.  An expression with no operand is not refused but makes the
    program fail: prefix signs alone transform to the empty postfix
    sequence, on which the evaluator raises [IndexError]; so does a line
    of white space, and [process_line] lets the error escape. *)
Theorem no_operand_raises_index_error (libm : c_library)
    (self : Calculator.t) :
  (forall signs,
      Forall (fun s => s = "-" \/ s = "+") signs ->
      transform_infix_to_postfix self signs = Ok []
      /\ evaluate libm self signs = Raise IndexError)
  /\ (forall line,
         line <> "" ->
         all_chars is_space line = true ->
         process_line libm self line = escapes self IndexError).
Proof.
  split.
  - intros signs Hs.
    assert (Ht : transform_infix_to_postfix self signs = Ok []).
    { unfold transform_infix_to_postfix.
      rewrite <- (app_nil_r signs).
      rewrite (transform_loop_signs self signs [] locals0 Hs eq_refl).
      reflexivity. }
    split; [exact Ht|]. unfold evaluate. now rewrite Ht.
  - intros line Hne Hsp. unfold process_line.
    destruct line as [|c r]; [contradiction|].
    assert (Hc : is_space c = true)
      by (cbn [all_chars] in Hsp; now apply andb_true_iff in Hsp).
    assert (Hslash : prefix "/" (String c r) = false).
    { cbn [prefix]. destruct (ascii_dec "/" c) as [<-|_];
        [discriminate|reflexivity]. }
    rewrite Hslash, (spaces_have_no_equal_sign _ Hsp).
    unfold process_expression. fold (tokens_of (String c r)).
    rewrite tokens_of_lex_from, (lex_from_spaces _ Hsp). reflexivity.
Qed.

Lemma no_operand_raises_index_error_witness :
  for_every_libm (fun libm =>
    Forall (fun s => s = "-" \/ s = "+") ["-"; "-"; "+"]
    /\ evaluate libm init ["-"; "-"; "+"] = Raise IndexError
    /\ all_chars is_space "   " = true
    /\ process_line libm init "   " = escapes init IndexError).
Proof.
  intros libm.
  assert (Hs : Forall (fun s => s = "-" \/ s = "+") ["-"; "-"; "+"])
    by (repeat constructor; auto).
  split; [exact Hs|]. split.
  - exact (proj2 (proj1 (no_operand_raises_index_error libm init) _ Hs)).
  - split; [reflexivity|].
    apply (proj2 (no_operand_raises_index_error libm init));
      [discriminate|reflexivity].
Defined.

(** *** Signs before a variable *)

Lemma apply_unary_number (stack : list string) (x : number) :
  Forall (fun s => s = "-" \/ s = "+") stack ->
  apply_unary stack x = Ok (signed_number (rev stack) x).
Proof.
  intros H. revert x. induction H as [|top rest Htop _ IH]; intros x.
  - reflexivity.
  - cbn [rev]. unfold signed_number. rewrite fold_right_app.
    cbn [fold_right]. fold (signed_number (rev rest)).
    destruct Htop as [-> | ->]; cbn; apply IH.
Qed.

Lemma identifier_is_no_literal (token : string) :
  token <> "" ->
  all_chars is_ascii_letter token = true ->
  all_chars is_digit token = false /\ is_unary_operator token = false.
Proof.
  intros Hne Hl. split.
  - destruct token as [|c r]; [contradiction|]. cbn [all_chars] in *.
    apply andb_true_iff in Hl as [Hc _].
    assert (Hd : is_digit c = false).
    { unfold is_digit, is_ascii_letter in *. cbv zeta in *.
      destruct (Nat.leb_spec 48 (nat_of_ascii c)),
               (Nat.leb_spec (nat_of_ascii c) 57); try reflexivity.
      destruct (Nat.leb_spec 97 (nat_of_ascii c)),
               (Nat.leb_spec 65 (nat_of_ascii c)),
               (Nat.leb_spec (nat_of_ascii c) 90),
               (Nat.leb_spec (nat_of_ascii c) 122);
        cbn in Hc; try discriminate; lia. }
    now rewrite Hd.
  - destruct (is_unary_operator token) eqn:H; [|reflexivity].
    destruct (is_unary_operator_inv _ H) as [-> | ->]; discriminate.
Qed.

Lemma transform_token_identifier (self : Calculator.t) (token : string)
    (l : locals) :
  next_operator_is_binary l = false ->
  token <> "" ->
  all_chars is_ascii_letter token = true ->
  transform_token self token l
  = match dict_get token (_variables self) with
    | None => Raise UnknownVariable
    | Some value =>
        x <- apply_unary (unary_operators_stack l) value ;;
        Ok {| binary_operators_stack := binary_operators_stack l;
              unary_operators_stack := [];
              next_operator_is_binary := true;
              postfix_expression := postfix_expression l ++ [Num x] |}
    end.
Proof.
  intros Hflag Hne Hl.
  destruct (identifier_is_no_literal token Hne Hl) as [Hd Hu].
  unfold transform_token. rewrite Hflag, Hu, Hd, Hl. reflexivity.
Qed.

(** X11.  A variable preceded by prefix signs gives one operand: the
    value the Variable Store binds it to, under the signs, which is a
    float when the stored value is one.  When the store does not bind the
    variable the transformer raises [UnknownVariable], signs or not. *)
Theorem unary_signs_fold_into_variable (self : Calculator.t)
    (signs : list string) (token : string) :
  Forall (fun s => s = "-" \/ s = "+") signs ->
  token <> "" ->
  all_chars is_ascii_letter token = true ->
  match dict_get token (_variables self) with
  | Some value =>
      transform_infix_to_postfix self (signs ++ [token])
      = Ok [Num (signed_number signs value)]
  | None =>
      transform_infix_to_postfix self (signs ++ [token])
      = Raise UnknownVariable
  end.
Proof.
  intros Hs Hne Hl. unfold transform_infix_to_postfix.
  rewrite (transform_loop_signs self signs [token] locals0 Hs eq_refl).
  cbn [transform_loop].
  rewrite transform_token_identifier by (assumption || reflexivity).
  destruct (dict_get token (_variables self)) as [value|]; [|reflexivity].
  cbn [unary_operators_stack locals0]. rewrite app_nil_r.
  rewrite apply_unary_number by (now apply Forall_rev).
  now rewrite rev_involutive.
Qed.

Lemma unary_signs_fold_into_variable_witness :
  Forall (fun s => s = "-" \/ s = "+") ["-"; "+"]
  /\ "rate" <> ""
  /\ all_chars is_ascii_letter "rate" = true
  /\ transform_infix_to_postfix {| _variables := [("rate", PFloat half)] |}
       (["-"; "+"] ++ ["rate"])
     = Ok [Num (PFloat (S754_finite true 4503599627370496 (-53)))].
Proof.
  assert (Hs : Forall (fun s => s = "-" \/ s = "+") ["-"; "+"])
    by (repeat constructor; auto).
  assert (Hne : "rate" <> "") by discriminate.
  split; [exact Hs|]. split; [exact Hne|]. split; [reflexivity|].
  exact (unary_signs_fold_into_variable
           {| _variables := [("rate", PFloat half)] |} ["-"; "+"] "rate"
           Hs Hne eq_refl).
Defined.

(** *** One value at the end *)

Lemma compute_loop_not_empty (libm : c_library) (postfix : list item)
    (stack stack' : list number) :
  compute_loop libm postfix stack = Ok stack' ->
  stack <> [] \/ postfix <> [] ->
  stack' <> [].
Proof.
  revert stack. induction postfix as [|i postfix IH]; intros stack.
  - cbn. intros [= <-] [H|H]; [exact H|contradiction].
  - cbn [compute_loop].
    destruct (compute_token libm i stack) as [stack1|e] eqn:Ht; cbn [bind];
      [|discriminate].
    intros H _. apply (IH _ H). left.
    destruct i as [o|x]; cbn [compute_token] in Ht.
    + destruct (dict_get o binary_operators) as [f|]; [|discriminate].
      destruct stack as [|b [|a rest]]; try discriminate.
      destruct (f libm a b); [|discriminate]. injection Ht as <-. discriminate.
    + destruct (isinstance_int x); [|discriminate].
      injection Ht as <-. discriminate.
Qed.

(** X12.  On a postfix sequence that comes from the transformer, an
    evaluation that reaches the end of the sequence has exactly one value
    on its stack, unless the sequence is empty: the value returned is
    never picked among several. *)
Theorem transformed_postfix_ends_with_one_value (libm : c_library)
    (self : Calculator.t) (tokens : list string) (postfix : list item)
    (stack : list number) :
  transform_infix_to_postfix self tokens = Ok postfix ->
  compute_loop libm postfix [] = Ok stack ->
  (postfix = [] /\ stack = []) \/ exists v, stack = [v].
Proof.
  intros Ht Hc.
  pose proof (transformed_postfix_leaves_one_value libm self tokens postfix
                stack Ht Hc) as Hle.
  destruct postfix as [|i postfix].
  - left. cbn in Hc. injection Hc as <-. now split.
  - right. assert (Hne : stack <> [])
      by (apply (compute_loop_not_empty libm _ _ _ Hc); right; discriminate).
    destruct stack as [|v [|w rest]]; [contradiction| |cbn in Hle; lia].
    now exists v.
Qed.

Lemma transformed_postfix_ends_with_one_value_witness :
  for_every_libm (fun libm =>
    transform_infix_to_postfix init ["1"; "+"; "2"; "*"; "3"]
    = Ok [Num (PInt 1); Num (PInt 2); Num (PInt 3); Tok "*"; Tok "+"]
    /\ compute_loop libm
         [Num (PInt 1); Num (PInt 2); Num (PInt 3); Tok "*"; Tok "+"] []
       = Ok [PInt 7]
    /\ (([Num (PInt 1); Num (PInt 2); Num (PInt 3); Tok "*"; Tok "+"] = []
         /\ [PInt 7] = [])
        \/ exists v, [PInt 7] = [v])).
Proof.
  intros libm. split; [reflexivity|]. split; [reflexivity|].
  exact (transformed_postfix_ends_with_one_value libm init
           ["1"; "+"; "2"; "*"; "3"] _ [PInt 7] eq_refl eq_refl).
Defined.

(** *** What the Variable Store holds *)

Lemma computed_value_is_stored_value (libm : c_library)
    (postfix : list item) (v : number) :
  compute_postfix_expresion libm postfix = Ok v -> stored_value v.
Proof.
  intros H. apply compute_postfix_inv in H as (stack & _ & Hret).
  destruct stack as [|top rest]; [discriminate|].
  pose proof (compute_return_cases top rest) as Hc.
  destruct top as [z|f|re im].
  - rewrite Hc in Hret. injection Hret as <-. exact I.
  - destruct Hc as [(z & _ & Hc)|(Hn & Hc)]; rewrite Hc in Hret;
      injection Hret as <-; [exact I|exact Hn].
  - rewrite Hc in Hret. discriminate.
Qed.

Lemma dict_set_keys_in {V : Type} (k x : string) (v : V) (d : dict V) :
  In x (map fst (dict_set k v d)) -> x = k \/ In x (map fst d).
Proof.
  induction d as [|[k0 v0] d IH]; cbn [dict_set map fst In].
  - intros [<-|[]]. now left.
  - destruct (String.eqb_spec k k0) as [->|N]; cbn [map fst In].
    + tauto.
    + intros [<-|H]; [tauto|]. apply IH in H. tauto.
Qed.

Lemma dict_set_nodup {V : Type} (k : string) (v : V) (d : dict V) :
  NoDup (map fst d) -> NoDup (map fst (dict_set k v d)).
Proof.
  induction d as [|[k0 v0] d IH]; cbn [dict_set map fst]; intros H.
  - repeat constructor. intros [].
  - inversion H as [|? ? Hnin Hd]; subst.
    destruct (String.eqb_spec k k0) as [->|N]; cbn [map fst].
    + now constructor.
    + constructor; [|now apply IH].
      intros Hin. apply dict_set_keys_in in Hin as [->|Hin]; contradiction.
Qed.

Lemma dict_set_forall {V : Type} (P : string * V -> Prop) (k : string)
    (v : V) (d : dict V) :
  P (k, v) -> Forall P d -> Forall P (dict_set k v d).
Proof.
  intros Hk. induction 1 as [|[k0 v0] d H0 Hd IH]; cbn [dict_set].
  - repeat constructor. exact Hk.
  - destruct (String.eqb_spec k k0) as [->|N]; constructor; auto.
Qed.

Lemma process_line_store (libm : c_library) (self : Calculator.t)
    (line : string) :
  store_ok (_variables self) ->
  store_ok (_variables (self_after (process_line libm self line))).
Proof.
  intros Hok. unfold process_line.
  destruct (prefix "/" line); [now rewrite process_command_self|].
  destruct (some_char (Ascii.eqb "=") line).
  - destruct (process_assignment_cases libm self line)
      as [->|(identifier & expression & value & _ & Hid & Hev & ->)];
      [exact Hok|].
    cbn [self_after _variables]. destruct Hok as [Hnd Hall]. split.
    + now apply dict_set_nodup.
    + apply dict_set_forall; [|exact Hall]. split; [exact Hid|].
      unfold evaluate in Hev.
      destruct (transform_infix_to_postfix self (split expression))
        as [postfix|e]; [|discriminate].
      exact (computed_value_is_stored_value libm postfix value Hev).
  - destruct line; [exact Hok|]. now rewrite process_expression_self.
Qed.

Lemma run_from_store (libm : c_library) (lines : list string) :
  forall self out,
    store_ok (_variables self) ->
    store_ok (_variables (self_after (run_from libm self lines out))).
Proof.
  induction lines as [|line lines IH]; intros self out Hok; [exact Hok|].
  cbn [run_from]. destruct (String.eqb line "/exit"); [exact Hok|].
  pose proof (process_line_store libm self line Hok) as H1.
  destruct (escaped (process_line libm self line)); [exact H1|].
  now apply IH.
Qed.

(** X13.  Through a whole session the Variable Store keeps each
    identifier once, binds alphabetic identifiers only, and holds integers
    or floats that are not integers: never a [complex], never a float such
    as 5.0.  Each line keeps this, and so does [run] from the empty
    store. *)
Theorem session_keeps_the_store_well_formed (libm : c_library) :
  (forall self line,
      store_ok (_variables self) ->
      store_ok (_variables (self_after (process_line libm self line))))
  /\ (forall lines,
         store_ok (_variables (self_after (run libm init lines)))).
Proof.
  split.
  - intros self line. apply process_line_store.
  - intros lines. apply run_from_store. split; constructor.
Qed.

Lemma session_keeps_the_store_well_formed_witness :
  for_every_libm (fun libm =>
    let self := {| _variables := [("a", PInt 1)] |} in
    store_ok (_variables self)
    /\ _variables (self_after (process_line libm self "b = 10 / 4"))
       = [("a", PInt 1); ("b", PFloat (S754_finite false 5629499534213120 (-51)))]
    /\ store_ok (_variables (self_after (process_line libm self "b = 10 / 4")))).
Proof.
  intros libm self.
  assert (Hok : store_ok (_variables self)).
  { split; repeat constructor. intros []. }
  split; [exact Hok|]. split; [reflexivity|].
  exact (proj1 (session_keeps_the_store_well_formed libm)
           self "b = 10 / 4" Hok).
Defined.

(** *** Assignments *)

Lemma substring_whole (s : string) (m : nat) :
  (String.length s <= m)%nat -> substring 0 m s = s.
Proof.
  revert m. induction s as [|c r IH]; intros m Hm.
  - now destruct m.
  - destruct m as [|m]; [cbn in Hm; lia|]. cbn [substring].
    rewrite IH; [reflexivity|cbn in Hm; lia].
Qed.

Lemma prefix_append (sep s : string) (m : nat) :
  prefix sep s = true ->
  (String.length s <= m)%nat ->
  append sep (substring (String.length sep) m s) = s.
Proof.
  revert s. induction sep as [|a sep IH]; intros s Hp Hm.
  - cbn. now apply substring_whole.
  - destruct s as [|b r]; [discriminate|]. cbn [prefix] in Hp.
    destruct (ascii_dec a b) as [->|_]; [|discriminate].
    cbn [String.length substring append]. rewrite IH; [reflexivity|exact Hp|].
    cbn in Hm. lia.
Qed.

Lemma split_once_eq (sep s : string) :
  split_once sep s
  = if prefix sep s then
      [EmptyString; substring (String.length sep) (String.length s) s]
    else
      match s with
      | EmptyString => [EmptyString]
      | String c r =>
          match split_once sep r with
          | head :: tail => String c head :: tail
          | [] => []
          end
      end.
Proof. destruct s; reflexivity. Qed.

Lemma split_once_two (sep s a b : string) :
  split_once sep s = [a; b] -> s = append a (append sep b).
Proof.
  revert a. induction s as [|c r IH]; intros a; rewrite split_once_eq.
  - destruct (prefix sep ""%string) eqn:Hp; [|discriminate].
    destruct sep; [|discriminate]. now intros [= <- <-].
  - destruct (prefix sep (String c r)) eqn:Hp.
    + remember (substring (String.length sep) (String.length (String c r))
                  (String c r)) as t eqn:Et.
      intros [= <- <-]. subst t. symmetry. now apply prefix_append.
    + destruct (split_once sep r) as [|head [|b' [|]]] eqn:Hr;
        try discriminate.
      intros [= <- <-]. cbn [append]. f_equal. now apply IH.
Qed.

Lemma prefix_cons (a b : ascii) (s1 s2 : string) :
  prefix (String a s1) (String b s2)
  = if Ascii.eqb a b then prefix s1 s2 else false.
Proof.
  cbn [prefix]. destruct (ascii_dec a b) as [->|N].
  - now rewrite Ascii.eqb_refl.
  - now destruct (Ascii.eqb_spec a b).
Qed.

Lemma prefix_nil (s : string) : prefix "" s = true.
Proof. now destruct s. Qed.

Lemma sub_operators_head (s : string) (after_operator : bool) :
  prefix "=" (sub_operators after_operator s) = false.
Proof.
  revert after_operator. induction s as [|c r IH]; intros b; [reflexivity|].
  cbn [sub_operators]. destruct (is_operator_char c) eqn:Hop; [reflexivity|].
  assert (Hc : Ascii.eqb "=" c = false).
  { destruct (Ascii.eqb_spec "="%char c) as [<-|_]; [discriminate|reflexivity]. }
  destruct (is_space c).
  - destruct b; [apply IH|]. destruct (operator_ahead r); [apply IH|].
    now rewrite prefix_cons, Hc.
  - now rewrite prefix_cons, Hc.
Qed.

Lemma split_once_skip (c : ascii) (s a b : string) :
  Ascii.eqb " " c = false \/ prefix "=" s = false ->
  split_once " = " s = [a; b] ->
  split_once " = " (String c s) = [String c a; b].
Proof.
  intros Hc Hs. rewrite split_once_eq.
  assert (Hp : prefix " = " (String c s) = false).
  { rewrite prefix_cons. destruct (Ascii.eqb " " c); [|reflexivity].
    destruct Hc as [Hc|Hc]; [discriminate|].
    destruct s as [|d s]; [reflexivity|]. rewrite prefix_cons in *.
    destruct (Ascii.eqb "=" d); [destruct s; discriminate|reflexivity]. }
  now rewrite Hp, Hs.
Qed.

Lemma sub_operators_splits (s : string) (after_operator : bool) :
  some_char (Ascii.eqb "=") s = true ->
  exists a b,
    split_once " = " (sub_operators after_operator s) = [a; b]
    /\ some_char (Ascii.eqb "=") a = false.
Proof.
  revert after_operator. induction s as [|c r IH]; intros after; [discriminate|].
  cbn [some_char sub_operators]. intros H.
  destruct (Ascii.eqb_spec "="%char c) as [<-|Hne].
  - cbn [is_operator_char]. replace (is_operator_char "=") with true
      by reflexivity.
    eexists EmptyString, _. split; [|reflexivity].
    rewrite split_once_eq, !prefix_cons, prefix_nil. reflexivity.
  - cbn [orb] in H.
    assert (Hc : Ascii.eqb "=" c = false)
      by (now destruct (Ascii.eqb_spec "="%char c)).
    destruct (is_operator_char c) eqn:Hop.
    + destruct (IH true H) as (a & b & Hs & Ha).
      exists (String " " (String c (String " " a))), b. split.
      * apply split_once_skip; [right; now rewrite prefix_cons, Hc|].
        apply split_once_skip.
        { left. pose proof (operator_is_no_space _ Hop) as Hsp.
          destruct (Ascii.eqb_spec " "%char c) as [<-|_];
            [discriminate|reflexivity]. }
        apply split_once_skip; [right; apply sub_operators_head|exact Hs].
      * cbn [some_char]. now rewrite Hc, Ha.
    + destruct (is_space c) eqn:Hsp.
      * destruct after; [now apply IH|].
        destruct (operator_ahead r); [now apply IH|].
        destruct (IH false H) as (a & b & Hs & Ha).
        exists (String c a), b. split.
        -- apply split_once_skip; [right; apply sub_operators_head|exact Hs].
        -- cbn [some_char]. now rewrite Hc, Ha.
      * destruct (IH false H) as (a & b & Hs & Ha).
        exists (String c a), b. split.
        -- apply split_once_skip; [right; apply sub_operators_head|exact Hs].
        -- cbn [some_char]. now rewrite Hc, Ha.
Qed.

Lemma lstrip_equal_sign (s : string) :
  some_char (Ascii.eqb "=") (lstrip s) = some_char (Ascii.eqb "=") s.
Proof.
  induction s as [|c r IH]; [reflexivity|]. cbn [lstrip].
  destruct (is_space c) eqn:Hsp; [|reflexivity].
  cbn [some_char]. rewrite IH.
  destruct (Ascii.eqb_spec "="%char c) as [<-|_]; [discriminate|reflexivity].
Qed.

Lemma rstrip_equal_sign (s : string) :
  some_char (Ascii.eqb "=") (rstrip s) = some_char (Ascii.eqb "=") s.
Proof.
  induction s as [|c r IH]; [reflexivity|]. cbn [rstrip some_char].
  rewrite <- IH. destruct (rstrip r) as [|c' r'].
  - destruct (is_space c) eqn:Hsp; [|reflexivity]. cbn [some_char].
    destruct (Ascii.eqb_spec "="%char c) as [<-|_]; [discriminate|reflexivity].
  - reflexivity.
Qed.


(** X14.  A line that holds an equal sign always splits in two for
    [process_assignment]: the normalised line is the identifier, then
    [" = "], then the expression, and the identifier, which holds no equal
    sign, is what stands before the first one. *)
Theorem assignment_splits_at_first_equal_sign (line : string) :
  some_char (Ascii.eqb "=") line = true ->
  exists identifier expression,
    split_once " = " (remove_extra_spaces line) = [identifier; expression]
    /\ remove_extra_spaces line
       = append identifier (append " = " expression)
    /\ some_char (Ascii.eqb "=") identifier = false.
Proof.
  intros H. unfold remove_extra_spaces, strip.
  assert (Hs : some_char (Ascii.eqb "=") (rstrip (lstrip line)) = true)
    by (now rewrite rstrip_equal_sign, lstrip_equal_sign).
  destruct (sub_operators_splits _ false Hs) as (a & b & Hsplit & Ha).
  exists a, b. split; [exact Hsplit|]. split; [|exact Ha].
  now apply split_once_two.
Qed.

Lemma assignment_splits_at_first_equal_sign_witness :
  some_char (Ascii.eqb "=") "total=a+b" = true
  /\ split_once " = " (remove_extra_spaces "total=a+b") = ["total"; "a + b"]
  /\ exists identifier expression,
       split_once " = " (remove_extra_spaces "total=a+b")
       = [identifier; expression]
       /\ remove_extra_spaces "total=a+b"
          = append identifier (append " = " expression)
       /\ some_char (Ascii.eqb "=") identifier = false.
Proof.
  split; [reflexivity|]. split; [reflexivity|].
  exact (assignment_splits_at_first_equal_sign "total=a+b" eq_refl).
Defined.

(** *** The session loop *)

Lemma run_from_after_exit (libm : c_library) (before after : list string) :
  forall self out,
    run_from libm self (before ++ "/exit" :: after) out
    = run_from libm self (before ++ ["/exit"]) out.
Proof.
  induction before as [|line before IH]; intros self out.
  - reflexivity.
  - cbn [app run_from]. destruct (String.eqb line "/exit"); [reflexivity|].
    destruct (escaped (process_line libm self line)); [reflexivity|].
    apply IH.
Qed.

Lemma run_from_ends (libm : c_library) (lines : list string) :
  forall self out,
    escaped (run_from libm self lines out) = None ->
    In "/exit" lines
    /\ exists out', printed (run_from libm self lines out)
                    = out' ++ [PrintText "Bye!"].
Proof.
  induction lines as [|line lines IH]; intros self out; [discriminate|].
  cbn [run_from In]. destruct (String.eqb_spec line "/exit") as [->|N].
  - intros _. split; [now left|]. now exists out.
  - destruct (escaped (process_line libm self line)) eqn:He.
    + cbn [escaped]. discriminate.
    + intros H. apply IH in H as [Hin Hout]. split; [now right|exact Hout].
Qed.

(** X15.  [run] reads nothing after [/exit]: the lines that follow it
    change neither the output nor the Variable Store.  A run ends without
    an error only when [/exit] was read, and then the last thing printed
    is "Bye!". *)
Theorem run_stops_at_exit (libm : c_library) (self : Calculator.t) :
  (forall before after,
      run libm self (before ++ "/exit" :: after)
      = run libm self (before ++ ["/exit"]))
  /\ (forall lines,
         escaped (run libm self lines) = None ->
         In "/exit" lines
         /\ exists out, printed (run libm self lines)
                        = out ++ [PrintText "Bye!"]).
Proof.
  split.
  - intros before after. apply run_from_after_exit.
  - intros lines. apply run_from_ends.
Qed.

Lemma run_stops_at_exit_witness :
  for_every_libm (fun libm =>
    escaped (run libm init ["n = 2"; "n ^ 10"; "/exit"; "n = 3"]) = None
    /\ In "/exit" ["n = 2"; "n ^ 10"; "/exit"; "n = 3"]
    /\ exists out,
         printed (run libm init ["n = 2"; "n ^ 10"; "/exit"; "n = 3"])
         = out ++ [PrintText "Bye!"]).
Proof.
  intros libm. split; [reflexivity|].
  exact (proj2 (run_stops_at_exit libm init)
           ["n = 2"; "n ^ 10"; "/exit"; "n = 3"] eq_refl).
Defined.

(** *** Where a session can fail *)






(** *** Integer arithmetic *)

Lemma integer_token (libm : c_library) (i : item) (stack : list number) :
  integer_item i ->
  Forall (fun x => isinstance_int x = true) stack ->
  match compute_token libm i stack with
  | Ok stack' => Forall (fun x => isinstance_int x = true) stack'
  | Raise e => e = InvalidExpression
  end.
Proof.
  intros Hi Hs. destruct i as [o|x]; cbn [integer_item compute_token] in *.
  - assert (E : exists f, dict_get o binary_operators = Some f
                  /\ forall a b, exists z, f libm (PInt a) (PInt b) = Ok (PInt z)).
    { destruct Hi as [->|[->| ->]].
      - exists operator_add. split; [reflexivity|].
        intros a b. now exists (a + b).
      - exists operator_sub. split; [reflexivity|].
        intros a b. now exists (a - b).
      - exists operator_mul. split; [reflexivity|].
        intros a b. now exists (a * b). }
    destruct E as (f & -> & Hf).
    destruct stack as [|b [|a rest]]; [reflexivity|reflexivity|].
    inversion Hs as [|? ? Hb Hs']; subst.
    inversion Hs' as [|? ? Ha Hrest]; subst.
    destruct a as [a| |]; try discriminate.
    destruct b as [b| |]; try discriminate.
    destruct (Hf a b) as (z & ->). cbn [bind]. now constructor.
  - rewrite Hi. now constructor.
Qed.

Lemma integer_loop (libm : c_library) (postfix : list item) :
  Forall integer_item postfix ->
  forall stack,
    Forall (fun x => isinstance_int x = true) stack ->
    match compute_loop libm postfix stack with
    | Ok stack' => Forall (fun x => isinstance_int x = true) stack'
    | Raise e => e = InvalidExpression
    end.
Proof.
  induction 1 as [|i postfix Hi _ IH]; intros stack Hs; [exact Hs|].
  cbn [compute_loop].
  pose proof (integer_token libm i stack Hi Hs) as Ht.
  destruct (compute_token libm i stack) as [stack1|e]; cbn [bind];
    [now apply IH|exact Ht].
Qed.

(** X17.  Integers stay integers under [+], [-] and [*]: on a postfix
    sequence of [int]s and these operators the evaluator returns an [int]
    or raises [InvalidExpression] for want of operands; only the empty
    sequence gives [IndexError], and nothing else is ever raised. *)
Theorem integer_arithmetic_stays_integer (libm : c_library)
    (postfix : list item) :
  Forall integer_item postfix ->
  (exists z, compute_postfix_expresion libm postfix = Ok (PInt z))
  \/ compute_postfix_expresion libm postfix = Raise InvalidExpression
  \/ (postfix = []
      /\ compute_postfix_expresion libm postfix = Raise IndexError).
Proof.
  intros Hp. unfold compute_postfix_expresion.
  pose proof (integer_loop libm postfix Hp [] (Forall_nil _)) as Hl.
  destruct (compute_loop libm postfix []) as [stack|e] eqn:Hc; cbn [bind].
  - destruct stack as [|top rest].
    + right; right. split; [|reflexivity].
      destruct postfix as [|i postfix]; [reflexivity|].
      exfalso. apply (compute_loop_not_empty libm _ _ _ Hc); [|reflexivity].
      right. discriminate.
    + left. inversion Hl as [|? ? Htop _]; subst.
      destruct top as [z| |]; try discriminate. now exists z.
  - right; left. now rewrite Hl.
Qed.

Lemma integer_arithmetic_stays_integer_witness :
  for_every_libm (fun libm =>
    Forall integer_item [Num (PInt 6); Num (PInt 7); Tok "*"; Tok "-"]
    /\ compute_postfix_expresion libm
         [Num (PInt 6); Num (PInt 7); Tok "*"; Tok "-"]
       = Raise InvalidExpression
    /\ ((exists z,
            compute_postfix_expresion libm
              [Num (PInt 6); Num (PInt 7); Tok "*"; Tok "-"] = Ok (PInt z))
        \/ compute_postfix_expresion libm
             [Num (PInt 6); Num (PInt 7); Tok "*"; Tok "-"]
           = Raise InvalidExpression
        \/ ([Num (PInt 6); Num (PInt 7); Tok "*"; Tok "-"] = []
            /\ compute_postfix_expresion libm
                 [Num (PInt 6); Num (PInt 7); Tok "*"; Tok "-"]
               = Raise IndexError))).
Proof.
  intros libm.
  assert (H : Forall integer_item
                [Num (PInt 6); Num (PInt 7); Tok "*"; Tok "-"]).
  { repeat (apply Forall_cons; [cbn; auto|]). apply Forall_nil. }
  split; [exact H|]. split; [reflexivity|].
  exact (integer_arithmetic_stays_integer libm _ H).
Defined.
